(** * Campus energy dashboard: ingestion and aggregation

    A shallow embedding of [anaylasis.py]: the CSV ingestion pipeline
    ([ingest_csv_folder]) and the aggregation helpers
    ([calculate_daily_totals], [building_wise_summary], [find_peak_time]).

    Conventions of the model.
    - A data frame is kept row-major; a column is reached through the
      position of its label in the header.
    - A float64 value is [NaN], an infinity or a finite value; finite
      values are exact rationals, so the rounding error of binary
      floating point is abstracted away.
    - A time stamp is a number of nanoseconds since the Unix epoch,
      [None] standing for pandas' NaT.
    - The parsing of text into dates and numbers is done by pandas; it is
      taken as a parameter of the development ([Parsers]). Integer
      cells are converted as pandas converts them (epoch nanoseconds). *)

From Stdlib Require Import ZArith QArith Qround Qcanon Lqa Ascii String.
From stdpp Require Import gmap strings list sorting.

(** ** Text helpers: [str.lower] and [str.strip] on ASCII text *)

Module Str.

Definition lower_char (c : ascii) : ascii :=
  let n := nat_of_ascii c in
  if (65 <=? n)%nat && (n <=? 90)%nat then ascii_of_nat (n + 32) else c.

Fixpoint lower (s : string) : string :=
  match s with
  | EmptyString => EmptyString
  | String c s' => String (lower_char c) (lower s')
  end.

(** The ASCII characters for which [str.isspace] holds. *)
Definition is_space (c : ascii) : bool :=
  let n := nat_of_ascii c in
  ((9 <=? n)%nat && (n <=? 13)%nat) || ((28 <=? n)%nat && (n <=? 32)%nat).

Fixpoint lstrip (s : string) : string :=
  match s with
  | EmptyString => EmptyString
  | String c s' => if is_space c then lstrip s' else s
  end.

Definition strip (s : string) : string :=
  String.rev (lstrip (String.rev (lstrip s))).

End Str.

(** ** Values *)

Inductive float64 : Type :=
  | NaN
  | Inf (negative : bool)
  | Fin (q : Q).

(** A cell of a frame as [pd.read_csv] types it: an integer, a float
    (a missing field is the float [NaN]), or text. *)
Inductive cell : Type :=
  | VInt (n : Z)
  | VFloat (x : float64)
  | VStr (s : string).

Definition isnan (x : float64) : bool :=
  match x with NaN => true | _ => false end.

(** ** Frames *)

(** What [pd.read_csv] returns: a header and the rows under it. *)
Record RawFrame : Type := {
  raw_columns : list string;
  raw_rows : list (list cell)
}.

(** An entry of [data_dir.glob("*.csv")]: its path, its [stem] and what
    [pd.read_csv] makes of it ([None]: the read raises). *)
Record CsvFile : Type := {
  path : string;
  stem : string;
  content : option RawFrame
}.

(** A row of the frames built by ingestion. *)
Record Reading : Type := {
  timestamp : option Z;
  kWh : float64;
  Building : cell
}.

(** A frame of readings, with the label of its index and of its columns. *)
Record Frame : Type := {
  index_name : string;
  columns : list string;
  readings : list Reading
}.

(** [pd.DataFrame(columns=["timestamp","kWh","Building"]).set_index("timestamp")] *)
Definition empty_frame : Frame :=
  {| index_name := "timestamp"; columns := ["kWh"; "Building"]; readings := [] |}.

(** ** Exceptions *)

Inductive exn : Type :=
  | FileNotFoundError
  | ParserError
  | IndexError
  | ValueError
  | TypeError
  | KeyError.

Inductive result (A : Type) : Type :=
  | Ok (a : A)
  | Raise (e : exn).
Arguments Ok {A} a.
Arguments Raise {A} e.

#[export] Instance result_ret : MRet result := λ A a, Ok a.
#[export] Instance result_bind : MBind result := λ A B k m,
  match m with
  | Ok a => k a
  | Raise e => Raise e
  end.

(** ** Logging *)

Inductive log_entry : Type :=
  | WarnNoCsv
  | WarnSkipping (f : string) (cols : list string)
  | LogException (f : string) (e : exn)
  | ErrorNoValidData
  | InfoCombined (nrows nfiles : nat)
  | InfoSkipped (bad : list string).

(** ** Column handling *)

(** Position of the first column carrying [name]. *)
Fixpoint index_of (name : string) (cols : list string) : option nat :=
  match cols with
  | [] => None
  | c :: cols' =>
      if bool_decide (c = name) then Some 0%nat else S <$> index_of name cols'
  end.

(** The field of [row] at position [j]; a short row reads as missing. *)
Definition field (j : nat) (row : list cell) : cell :=
  default (VFloat NaN) (row !! j).

(** [df[name]] when the label is unique; with a repeated label pandas
    hands back a frame, on which the conversions raise [e]. *)
Definition get_column (cols : list string) (rows : list (list cell))
    (name : string) (e : exn) : result (list cell) :=
  match filter (λ jc, jc.2 = name) (imap pair cols) with
  | [(j, _)] => Ok (field j <$> rows)
  | _ => Raise e
  end.

Definition time_names : list string := ["timestamp"; "time"; "date"].
Definition energy_names : list string := ["kwh"; "kw"; "energy"].

(** One turn of the loop that fills [col_map]. *)
Definition col_map_step (col_map : gmap string string) (c : string)
    : gmap string string :=
  let lc := Str.lower (Str.strip c) in
  let col_map :=
    if bool_decide (lc ∈ time_names) then <[c := "timestamp"]> col_map
    else col_map in
  if bool_decide (lc ∈ energy_names) then <[c := "kWh"]> col_map
  else col_map.

Definition build_col_map (cols : list string) : gmap string string :=
  foldl col_map_step ∅ cols.

(** [df.rename(columns=col_map)] on the header. *)
Definition rename (col_map : gmap string string) (cols : list string)
    : list string :=
  (λ c, default c (col_map !! c)) <$> cols.

Definition standardize (cols : list string) : list string :=
  rename (build_col_map cols) cols.

(** ** Sorting by time stamp *)

(** Ascending order of time stamps, NaT last. *)
Definition ts_leb (a b : option Z) : bool :=
  match a, b with
  | Some x, Some y => (x <=? y)%Z
  | _, None => true
  | None, Some _ => false
  end.

Fixpoint insert_by_timestamp (r : Reading) (l : list Reading) : list Reading :=
  match l with
  | [] => [r]
  | r' :: l' =>
      if ts_leb (timestamp r) (timestamp r') then r :: l
      else r' :: insert_by_timestamp r l'
  end.

(** [sort_values("timestamp")], as an insertion sort. pandas does not
    fix the order of rows with equal time stamps; the general statements
    below use only that the result is a sorted permutation. *)
Definition sort_values (l : list Reading) : list Reading :=
  foldr insert_by_timestamp [] l.

(** ** Ingestion *)

Definition notna (r : Reading) : bool :=
  match timestamp r with
  | Some _ => negb (isnan (kWh r))
  | None => false
  end.

(** [df.dropna(subset=["timestamp","kWh"])] *)
Definition dropna (l : list Reading) : list Reading :=
  List.filter notna l.

(** What one turn of the [try] block does when it does not raise. *)
Inductive body_outcome : Type :=
  | Append (part : list Reading)
  | Continue (cols : list string).

(** The local variables of [ingest_csv_folder] that the loop updates. *)
Record loop_state : Type := {
  rows : list (list Reading);
  bad_files : list string;
  log : list log_entry
}.

Definition int64_timestamp (n : Z) : option Z :=
  if bool_decide (- 2 ^ 63 < n < 2 ^ 63)%Z then Some n else None.

(** pandas' parsers: a date from a cell that is neither an integer nor
    missing (the whole column is passed too, since the format may be
    inferred from it), and a number from text. *)
Record Parsers : Type := {
  parse_datetime : list cell → cell → option Z;
  parse_float : string → float64
}.

Section Ingest.

Variable pd : Parsers.

(** [pd.to_datetime(col, errors="coerce")] *)
Definition to_datetime (col : list cell) : list (option Z) :=
  (λ c, match c with
        | VInt n => int64_timestamp n
        | VFloat NaN => None
        | _ => parse_datetime pd col c
        end) <$> col.

(** [pd.to_numeric(col, errors="coerce")] *)
Definition to_numeric (col : list cell) : list float64 :=
  (λ c, match c with
        | VInt n => Fin (inject_Z n)
        | VFloat x => x
        | VStr s => parse_float pd s
        end) <$> col.

Definition read_csv (f : CsvFile) : result RawFrame :=
  match content f with
  | Some df => Ok df
  | None => Raise ParserError
  end.

(** Lines 32-37: the building of a file. *)
Definition infer_building (f : CsvFile) (df : RawFrame) : result cell :=
  if bool_decide ("Building" ∈ raw_columns df) then
    match index_of "Building" (raw_columns df), raw_rows df with
    | Some j, row :: _ => Ok (field j row)
    | _, _ => Raise IndexError
    end
  else Ok (VStr (stem f)).

(** Lines 30-63: the body of the [try] block for one file. *)
Definition try_body (f : CsvFile) : result body_outcome :=
  df ← read_csv f;
  building_name ← infer_building f df;
  let cols := standardize (raw_columns df) in
  if negb (bool_decide ("timestamp" ∈ cols))
     || negb (bool_decide ("kWh" ∈ cols))
  then Ok (Continue cols)
  else
    tcol ← get_column cols (raw_rows df) "timestamp" ValueError;
    let ts := to_datetime tcol in
    kcol ← get_column cols (raw_rows df) "kWh" TypeError;
    let kw := to_numeric kcol in
    let df := zip_with (λ t k,
                {| timestamp := t; kWh := k; Building := building_name |})
                ts kw in
    Ok (Append (dropna df)).

(** Lines 27-66: one turn of the loop over [files]. *)
Definition loop_step (st : loop_state) (f : CsvFile) : loop_state :=
  match try_body f with
  | Ok (Append part) =>
      {| rows := rows st ++ [part];
         bad_files := bad_files st;
         log := log st |}
  | Ok (Continue cols) =>
      {| rows := rows st;
         bad_files := bad_files st ++ [path f];
         log := log st ++ [WarnSkipping (path f) cols] |}
  | Raise e =>
      {| rows := rows st;
         bad_files := bad_files st ++ [path f];
         log := log st ++ [LogException (path f) e] |}
  end.

(** The rows a file adds to [rows], if it adds any. *)
Definition part_of (f : CsvFile) : option (list Reading) :=
  match try_body f with
  | Ok (Append part) => Some part
  | _ => None
  end.

Definition loop (files : list CsvFile) : loop_state :=
  foldl loop_step {| rows := []; bad_files := []; log := [] |} files.

(** Lines 20-79: what is returned and logged once the directory is
    known to exist and [files] is its list of CSV files. *)
Definition ingest_files (files : list CsvFile) : Frame * list log_entry :=
  match files with
  | [] => (empty_frame, [WarnNoCsv])
  | _ =>
      let st := loop files in
      match rows st with
      | [] => (empty_frame, log st ++ [ErrorNoValidData])
      | _ =>
          let combined := sort_values (concat (rows st)) in
          ({| index_name := "timestamp";
              columns := ["kWh"; "Building"];
              readings := combined |},
           log st
             ++ [InfoCombined (length combined) (length files)]
             ++ match bad_files st with
                | [] => []
                | bad => [InfoSkipped bad]
                end)
      end
  end.

(** The file system: a path that exists is mapped to the list
    [data_dir.glob("*.csv")] yields for it. *)
Definition ingest_csv_folder (fs : gmap string (list CsvFile))
    (data_dir : string) : result Frame * list log_entry :=
  match fs !! data_dir with
  | None => (Raise FileNotFoundError, [])
  | Some files =>
      let '(df, lg) := ingest_files files in (Ok df, lg)
  end.

End Ingest.

(** ** Arithmetic of float64 values *)

Definition Qlt_bool (p q : Q) : bool := negb (Qle_bool q p).

(** [x < y]; false as soon as one side is [NaN]. *)
Definition fl_ltb (x y : float64) : bool :=
  match x, y with
  | NaN, _ | _, NaN => false
  | Inf true, Inf true => false
  | Inf true, _ => true
  | _, Inf true => false
  | Inf false, _ => false
  | _, Inf false => true
  | Fin p, Fin q => Qlt_bool p q
  end.

(** [x <= y] on values that are not [NaN]. *)
Definition fl_leb (x y : float64) : bool := negb (fl_ltb y x).

Definition fl_add (x y : float64) : float64 :=
  match x, y with
  | NaN, _ | _, NaN => NaN
  | Inf a, Inf b => if Bool.eqb a b then Inf a else NaN
  | Inf a, Fin _ | Fin _, Inf a => Inf a
  | Fin p, Fin q => Fin (Qred (p + q))
  end.

Definition fl_div_nat (x : float64) (n : nat) : float64 :=
  match n, x with
  | O, _ => NaN
  | _, Fin p => Fin (Qred (p / inject_Z (Z.of_nat n)))
  | _, _ => x
  end.

(** Round to the nearest integer, ties to the even one. *)
Definition rint (q : Q) : Z :=
  let f := Qfloor q in
  let d := (q - inject_Z f)%Q in
  if Qlt_bool d (1 # 2) then f
  else if Qlt_bool (1 # 2) d then (f + 1)%Z
  else if Z.even f then f else (f + 1)%Z.

(** [round(3)] on one value. *)
Definition round3 (x : float64) : float64 :=
  match x with
  | Fin q => Fin (Qred (inject_Z (rint (q * 1000)) / 1000))
  | _ => x
  end.

(** The values of a column that aggregations look at ([skipna]). *)
Definition present (l : list float64) : list float64 :=
  List.filter (λ x, negb (isnan x)) l.

Definition fl_sum (l : list float64) : float64 :=
  foldl fl_add (Fin 0) (present l).

Definition fl_mean (l : list float64) : float64 :=
  match present l with
  | [] => NaN
  | p => fl_div_nat (foldl fl_add (Fin 0) p) (length p)
  end.

Definition fl_min (l : list float64) : float64 :=
  match present l with
  | [] => NaN
  | x :: p => foldl (λ m y, if fl_ltb y m then y else m) x p
  end.

Definition fl_max (l : list float64) : float64 :=
  match present l with
  | [] => NaN
  | x :: p => foldl (λ m y, if fl_ltb m y then y else m) x p
  end.

(** ** Aggregation *)

(** The frames the aggregations return: an index, labelled, and the
    values of each row under the column labels. *)
Record Table : Type := {
  t_index_name : option string;
  t_columns : list string;
  t_rows : list (cell * list float64)
}.

(** [df.empty]: no row, or no column. *)
Definition empty (df : Frame) : bool :=
  match readings df, columns df with
  | [], _ | _, [] => true
  | _, _ => false
  end.

Definition ns_per_day : Z := 86400 * 10 ^ 9.
Definition day_of (t : Z) : Z := (t `div` ns_per_day)%Z.

(** [df.resample("D")["kWh"].sum()]: one bin per calendar day from the
    first to the last day of the index, empty days included. *)
Definition resample_day_sum (l : list Reading) : list (cell * list float64) :=
  match omap timestamp l with
  | [] => []
  | t :: ts =>
      let first := day_of (foldl Z.min t ts) in
      let last := day_of (foldl Z.max t ts) in
      (λ i : nat,
         let d := (first + Z.of_nat i)%Z in
         (VInt d,
          [fl_sum (kWh <$> List.filter
             (λ r, match timestamp r with
                   | Some t' => (day_of t' =? d)%Z
                   | None => false
                   end) l)]))
      <$> seq 0 (Z.to_nat (last - first + 1))
  end.

Definition calculate_daily_totals (df : Frame) : Table :=
  if empty df then
    {| t_index_name := None; t_columns := ["kWh"]; t_rows := [] |}
  else
    let daily := resample_day_sum (readings df) in
    {| t_index_name := Some "date";
       t_columns := (λ c, if bool_decide (c = "kWh") then "daily_kWh" else c)
                      <$> ["kWh"];
       t_rows := daily |}.

(** Group labels are compared as pandas sorts them: numbers first, by
    value, then text, by code point. *)
Definition cell_leb (a b : cell) : bool :=
  match a, b with
  | VStr s, VStr t => String.leb s t
  | VStr _, _ => false
  | _, VStr _ => true
  | VInt m, VInt n => (m <=? n)%Z
  | VInt m, VFloat y => fl_leb (Fin (inject_Z m)) y
  | VFloat x, VInt n => fl_leb x (Fin (inject_Z n))
  | VFloat x, VFloat y => fl_leb x y
  end.

Definition cell_le (a b : cell) : Prop := cell_leb a b = true.
#[export] Instance cell_le_dec : RelDecision cell_le.
Proof. intros a b. unfold cell_le. apply _. Defined.

Definition key_isna (c : cell) : bool :=
  match c with VFloat NaN => true | _ => false end.

#[export] Instance Q_eq_dec : EqDecision Q.
Proof. solve_decision. Defined.
#[export] Instance float64_eq_dec : EqDecision float64.
Proof. solve_decision. Defined.
#[export] Instance cell_eq_dec : EqDecision cell.
Proof. solve_decision. Defined.

(** The labels of [groupby("Building")]: missing labels dropped, each
    label once, in ascending order. *)
Definition group_keys (l : list Reading) : list cell :=
  merge_sort cell_le
    (remove_dups (List.filter (λ c, negb (key_isna c)) (Building <$> l))).

Definition agg_names : list string := ["mean"; "min"; "max"; "sum"].

(** [groupby("Building")["kWh"].agg(['mean','min','max','sum'])] *)
Definition groupby_agg (l : list Reading) : list (cell * list float64) :=
  (λ b,
     let g := kWh <$> List.filter (λ r, bool_decide (Building r = b)) l in
     (b, [fl_mean g; fl_min g; fl_max g; fl_sum g]))
  <$> group_keys l.

Definition summary_names : gmap string string :=
  {[ "mean" := "mean_kWh"; "min" := "min_kWh";
     "max" := "max_kWh"; "sum" := "total_kWh" ]}.

Definition building_wise_summary (df : Frame) : Table :=
  if empty df || negb (bool_decide ("Building" ∈ columns df)) then
    {| t_index_name := None; t_columns := agg_names; t_rows := [] |}
  else
    let grouped :=
      (λ kv : cell * list float64, (kv.1, round3 <$> kv.2))
        <$> groupby_agg (readings df) in
    {| t_index_name := Some "Building";
       t_columns := rename summary_names agg_names;
       t_rows := grouped |}.

(** What [find_peak_time] returns: [pd.Series()] or a series with the
    two entries ["timestamp"] and ["kWh"]. *)
Inductive Series : Type :=
  | EmptySeries
  | PeakSeries (idx : option Z) (peak_value : float64).

(** The first row holding the largest value after [best]. *)
Fixpoint argmax_from (best : Reading) (l : list Reading) : Reading :=
  match l with
  | [] => best
  | r :: l' =>
      if fl_ltb (kWh best) (kWh r) then argmax_from r l'
      else argmax_from best l'
  end.

(** [df["kWh"].idxmax()]: the index label of the first row holding the
    largest value, missing values skipped. *)
Definition idxmax (l : list Reading) : result (option Z) :=
  match List.filter (λ r, negb (isnan (kWh r))) l with
  | [] => Raise ValueError
  | r :: l' => Ok (timestamp (argmax_from r l'))
  end.

(** [df.loc[idx, "kWh"]]: the values of the rows labelled [idx]. *)
Definition loc_kWh (l : list Reading) (idx : option Z) : list float64 :=
  kWh <$> List.filter (λ r, bool_decide (timestamp r = idx)) l.

Definition find_peak_time (df : Frame) : result Series :=
  if empty df then Ok EmptySeries
  else
    idx ← idxmax (readings df);
    peak_value ←
      match loc_kWh (readings df) idx with
      | [] => Raise KeyError
      | [v] => Ok v
      | v :: _ => Ok v
      end;
    Ok (PeakSeries idx peak_value).

(** ** The scenario of two files, [A.csv] and [B.csv] *)

Module Scenario.

(** Time stamps are given in minutes after 2024-01-01 00:00. *)
Definition at_minute (m : Z) : Z := ((19723 * 1440 + m) * 60 * 10 ^ 9)%Z.

Definition A_csv : CsvFile :=
  {| path := "data/A.csv"; stem := "A";
     content := Some
       {| raw_columns := ["timestamp"; "kWh"];
          raw_rows := [ [VInt (at_minute 0); VInt 10];
                        [VInt (at_minute 60); VInt 15] ] |} |}.

Definition B_csv : CsvFile :=
  {| path := "data/B.csv"; stem := "B";
     content := Some
       {| raw_columns := ["timestamp"; "kWh"; "Building"];
          raw_rows := [ [VInt (at_minute 30); VInt 5; VStr "Hall"] ] |} |}.

(** No text has to be parsed in the scenario. *)
Definition no_text : Parsers :=
  {| parse_datetime := λ _ _, None; parse_float := λ _, NaN |}.

Definition cleaned : Frame :=
  (ingest_files no_text [A_csv; B_csv]).1.

End Scenario.


(** * Notions used by the statements *)

Definition is_time (c : string) : Prop :=
  Str.lower (Str.strip c) ∈ time_names.
Definition is_energy (c : string) : Prop :=
  Str.lower (Str.strip c) ∈ energy_names.

(** The canonical label of a column. *)
Definition canon (c : string) : string :=
  if bool_decide (is_energy c) then "kWh"
  else if bool_decide (is_time c) then "timestamp"
  else c.

(** Two labels name the same column: they are equal, or both are
    spellings of the time column, or both of the energy column. *)
Definition same_label (c1 c2 : string) : Prop :=
  c1 = c2 ∨ (is_time c1 ∧ is_time c2) ∨ (is_energy c1 ∧ is_energy c2).

(** Two frames that differ in the spelling of their time and energy
    columns only. *)
Definition header_variant (df1 df2 : RawFrame) : Prop :=
  Forall2 same_label (raw_columns df1) (raw_columns df2)
  ∧ raw_rows df1 = raw_rows df2.

Definition file_variant (f1 f2 : CsvFile) : Prop :=
  stem f1 = stem f2 ∧ option_Forall2 header_variant (content f1) (content f2).

(** The frame a file with the canonical labels would hold. *)
Definition canonical (f : CsvFile) : CsvFile :=
  {| path := path f; stem := stem f;
     content := (λ df, {| raw_columns := canon <$> raw_columns df;
                          raw_rows := raw_rows df |}) <$> content f |}.

Definition ts_le (a b : option Z) : Prop := ts_leb a b = true.
Definition before (r r' : Reading) : Prop :=
  ts_le (timestamp r) (timestamp r').


(** A reading is complete: its time stamp and its value are present. *)
Definition complete (r : Reading) : Prop :=
  is_Some (timestamp r) ∧ kWh r ≠ NaN.

Definition finite (x : float64) : Prop :=
  match x with Fin _ => True | _ => False end.

(** ** Sample files *)

Module Samples.

(** A meter whose one reading is infinite. *)
Definition inf_csv : CsvFile :=
  {| path := "data/meter.csv"; stem := "meter";
     content := Some
       {| raw_columns := ["timestamp"; "kWh"];
          raw_rows := [ [VInt 0; VFloat (Inf false)] ] |} |}.

(** The columns of [A.csv] under other spellings. *)
Definition A_variant_csv : CsvFile :=
  {| path := "data/A.csv"; stem := "A";
     content := Some
       {| raw_columns := [" Time "; "ENERGY"];
          raw_rows := [ [VInt (Scenario.at_minute 0); VInt 10];
                        [VInt (Scenario.at_minute 60); VInt 15] ] |} |}.

(** A building column written in lower case. *)
Definition C_csv : CsvFile :=
  {| path := "data/C.csv"; stem := "C";
     content := Some
       {| raw_columns := ["date"; "kw"; "building"];
          raw_rows := [ [VInt 0; VInt 7; VStr "Hall"] ] |} |}.

(** No time column under a recognised name. *)
Definition notes_csv : CsvFile :=
  {| path := "data/notes.csv"; stem := "notes";
     content := Some
       {| raw_columns := ["when"; "kWh"];
          raw_rows := [ [VInt 0; VInt 1] ] |} |}.

(** Two buildings metered at the same instant. *)
Definition gym_csv : CsvFile :=
  {| path := "data/Gym.csv"; stem := "Gym";
     content := Some
       {| raw_columns := ["timestamp"; "kWh"];
          raw_rows := [ [VInt 0; VInt 5] ] |} |}.

Definition lab_csv : CsvFile :=
  {| path := "data/Lab.csv"; stem := "Lab";
     content := Some
       {| raw_columns := ["timestamp"; "kWh"];
          raw_rows := [ [VInt 0; VInt 10] ] |} |}.

Definition same_instant : Frame :=
  (ingest_files Scenario.no_text [gym_csv; lab_csv]).1.

(** A frame of readings that carries no ["Building"] column. *)
Definition unlabelled : Frame :=
  {| index_name := "timestamp"; columns := ["kWh"];
     readings := [ {| timestamp := Some 0%Z; kWh := Fin 5;
                      Building := VFloat NaN |} ] |}.

Definition data_dir (files : list CsvFile) : gmap string (list CsvFile) :=
  {[ "data" := files ]}.

End Samples.

(** ** More sample files *)

Module Cases.

(** A file whose ["Building"] column changes from one row to the next. *)
Definition mixed_csv : CsvFile :=
  {| path := "data/mixed.csv"; stem := "mixed";
     content := Some
       {| raw_columns := ["timestamp"; "kWh"; "Building"];
          raw_rows := [ [VInt 0; VInt 5; VStr "Hall"];
                        [VInt 1; VInt 6; VStr "Annex"] ] |} |}.

(** A header and no row, with a ["Building"] column. *)
Definition header_Building_csv : CsvFile :=
  {| path := "data/empty_hall.csv"; stem := "empty_hall";
     content := Some
       {| raw_columns := ["timestamp"; "kWh"; "Building"];
          raw_rows := [] |} |}.

(** A header and no row, without a ["Building"] column. *)
Definition header_csv : CsvFile :=
  {| path := "data/empty.csv"; stem := "empty";
     content := Some
       {| raw_columns := ["timestamp"; "kWh"]; raw_rows := [] |} |}.

(** Two spellings of the time column in one file. *)
Definition twice_time_csv : CsvFile :=
  {| path := "data/twice.csv"; stem := "twice";
     content := Some
       {| raw_columns := ["time"; "Date"; "kWh"];
          raw_rows := [ [VInt 0; VInt 1; VInt 5] ] |} |}.

(** A file that cannot be read. *)
Definition broken_csv : CsvFile :=
  {| path := "data/broken.csv"; stem := "broken"; content := None |}.

(** Readings that are all missing. *)
Definition all_missing : Frame :=
  {| index_name := "timestamp"; columns := ["kWh"; "Building"];
     readings := [ {| timestamp := Some 0%Z; kWh := NaN;
                      Building := VStr "A" |};
                   {| timestamp := Some 1%Z; kWh := NaN;
                      Building := VStr "A" |} ] |}.

(** Readings on two days with an empty day between them. *)
Definition gapped : Frame :=
  {| index_name := "timestamp"; columns := ["kWh"; "Building"];
     readings := [ {| timestamp := Some 0%Z; kWh := Fin 4;
                      Building := VStr "A" |};
                   {| timestamp := Some (2 * ns_per_day)%Z; kWh := Fin 6;
                      Building := VFloat NaN |} ] |}.

End Cases.

(** The log entries one file leaves in the loop. *)
Definition file_entries (pd : Parsers) (f : CsvFile) : list log_entry :=
  match try_body pd f with
  | Ok (Append _) => []
  | Ok (Continue cols) => [WarnSkipping (path f) cols]
  | Raise e => [LogException (path f) e]
  end.

(** ** The points of the dashboard ([vizulization.py]) *)

(** Descending order of the values, missing values last. *)
Definition kWh_desc_leb (r r' : Reading) : bool :=
  isnan (kWh r') || (negb (isnan (kWh r)) && negb (fl_ltb (kWh r) (kWh r'))).

Fixpoint insert_by (leb : Reading → Reading → bool) (r : Reading)
    (l : list Reading) : list Reading :=
  match l with
  | [] => [r]
  | r' :: l' => if leb r r' then r :: l else r' :: insert_by leb r l'
  end.

Definition sort_by (leb : Reading → Reading → bool) (l : list Reading)
    : list Reading :=
  foldr (insert_by leb) [] l.

(** Line 34:
    [cleaned_df.sort_values("kWh", ascending=False).head(100).reset_index()] *)
Definition top_points (df : Frame) : list Reading :=
  take 100 (sort_by kWh_desc_leb (readings df)).

Definition fl_eqb (x y : float64) : bool :=
  match x, y with
  | Inf a, Inf b => Bool.eqb a b
  | Fin p, Fin q => Qeq_bool p q
  | _, _ => false
  end.

Definition cell_number (c : cell) : float64 :=
  match c with
  | VInt n => Fin (inject_Z n)
  | VFloat x => x
  | VStr _ => NaN
  end.

(** [a == b] on two labels: a missing label equals nothing. *)
Definition pandas_eq (a b : cell) : bool :=
  match a, b with
  | VStr s, VStr t => bool_decide (s = t)
  | VStr _, _ | _, VStr _ => false
  | _, _ => fl_eqb (cell_number a) (cell_number b)
  end.

(** Two labels are one entry of [unique()]: equal, or both missing. *)
Definition key_same (a b : cell) : bool :=
  pandas_eq a b || (key_isna a && key_isna b).

(** [col.unique()]: the labels in the order of their first occurrence. *)
Definition unique (l : list cell) : list cell :=
  foldl (λ seen b, if existsb (key_same b) seen then seen else seen ++ [b])
    [] l.

(** Lines 55-62: the series drawn in the scatter plot, one for each
    label of [unique()] with the points whose building equals the label,
    or one series without label when there is no ["Building"] column. *)
Definition scatter_series (df : Frame) : list (option cell * list Reading) :=
  let top := top_points df in
  if bool_decide ("Building" ∈ columns df) then
    (λ b, (Some b, List.filter (λ r, pandas_eq (Building r) b) top))
      <$> unique (Building <$> top)
  else [(None, top)].

Definition kWh_desc (r r' : Reading) : Prop := kWh_desc_leb r r' = true.

(** ** The rows of a file before the incomplete ones are dropped *)

(** Lines 30-59: the frame of a file once its two columns are converted
    and its building is attached, before [dropna]; it has no row when
    the file is skipped or fails. *)
Definition converted_rows (pd : Parsers) (f : CsvFile) : list Reading :=
  match content f with
  | None => []
  | Some df =>
      let cols := standardize (raw_columns df) in
      match infer_building f df,
            get_column cols (raw_rows df) "timestamp" ValueError,
            get_column cols (raw_rows df) "kWh" TypeError with
      | Ok building_name, Ok tcol, Ok kcol =>
          zip_with (λ t k,
            {| timestamp := t; kWh := k; Building := building_name |})
            (to_datetime pd tcol) (to_numeric pd kcol)
      | _, _, _ => []
      end
  end.

#[export] Instance complete_dec (r : Reading) : Decision (complete r).
Proof. unfold complete. apply _. Defined.

(** ** Readings of whole numbers, within the calendar *)

Definition whole_kWh (r : Reading) : Z :=
  match kWh r with
  | Fin q => Qnum q
  | _ => 0%Z
  end.

(** The value of the reading is the whole number [whole_kWh]. *)
Definition is_whole (r : Reading) : Prop :=
  kWh r = Fin (inject_Z (whole_kWh r)).

Definition whole_total (l : list Reading) : Z :=
  foldr (λ r acc, (whole_kWh r + acc)%Z) 0%Z l.

Definition whole_magnitude (l : list Reading) : Z :=
  foldr (λ r acc, (Z.abs (whole_kWh r) + acc)%Z) 0%Z l.

(** The reading was taken on day [d]. *)
Definition on_day (d : Z) (r : Reading) : bool :=
  match timestamp r with
  | Some t => (day_of t =? d)%Z
  | None => false
  end.

(** The reading has a time stamp, well inside the range of 64-bit
    nanosecond time stamps. *)
Definition in_calendar (r : Reading) : Prop :=
  ∃ t, timestamp r = Some t ∧ (- 2 ^ 62 ≤ t ≤ 2 ^ 62)%Z.

Module Patchy.

(** A file with a complete row, a row without time stamp, a row without
    value and a row with an infinite value. *)
Definition patchy_csv : CsvFile :=
  {| path := "data/patchy.csv"; stem := "patchy";
     content := Some
       {| raw_columns := ["timestamp"; "kWh"];
          raw_rows := [ [VInt 0; VInt 5];
                        [VFloat NaN; VInt 6];
                        [VInt 2; VFloat NaN];
                        [VInt 3; VFloat (Inf false)] ] |} |}.


End Patchy.

(** * Properties *)

(** ** Column names *)

Lemma col_map_step_lookup (m : gmap string string) (c' c : string) :
  col_map_step m c' !! c =
    if bool_decide (c' = c ∧ (is_time c ∨ is_energy c)) then Some (canon c)
    else m !! c.
Proof.
  unfold col_map_step, canon, is_time, is_energy.
  destruct (decide (c' = c)) as [->|Hne].
  - destruct (decide (Str.lower (Str.strip c) ∈ energy_names)) as [He|He];
      destruct (decide (Str.lower (Str.strip c) ∈ time_names)) as [Ht|Ht];
      repeat first [ rewrite bool_decide_eq_true_2 by tauto
                   | rewrite bool_decide_eq_false_2 by tauto ];
      rewrite ?lookup_insert_eq; reflexivity.
  - rewrite (bool_decide_eq_false_2 (c' = c ∧ _)) by tauto.
    repeat case_bool_decide; rewrite ?lookup_insert_ne by done; reflexivity.
Qed.

Lemma col_map_fold_lookup (cols : list string) (m : gmap string string)
    (c : string) :
  foldl col_map_step m cols !! c =
    if bool_decide (c ∈ cols ∧ (is_time c ∨ is_energy c)) then Some (canon c)
    else m !! c.
Proof.
  revert m. induction cols as [|c' cols IH]; intros m; cbn [foldl].
  - rewrite bool_decide_eq_false_2; [done|]. intros [H _]. inversion H.
  - rewrite IH, col_map_step_lookup.
    destruct (decide (is_time c ∨ is_energy c));
      destruct (decide (c ∈ cols)); destruct (decide (c' = c));
      repeat first
        [ rewrite bool_decide_eq_true_2 by (rewrite ?elem_of_cons; intuition)
        | rewrite bool_decide_eq_false_2
            by (rewrite ?elem_of_cons; intuition congruence) ];
      reflexivity.
Qed.

Lemma canon_id (c : string) : ¬ is_time c → ¬ is_energy c → canon c = c.
Proof.
  intros Ht He. unfold canon.
  rewrite !bool_decide_eq_false_2; done.
Qed.

(** The renaming through [col_map] sends every label to its canonical
    label. *)
Lemma standardize_canon (cols : list string) :
  standardize cols = canon <$> cols.
Proof.
  unfold standardize, rename, build_col_map.
  apply Forall_fmap_ext, Forall_forall. intros c Hc.
  rewrite col_map_fold_lookup, lookup_empty.
  case_bool_decide as H; simpl; [done|].
  symmetry. apply canon_id; naive_solver.
Qed.

Ltac split_names :=
  repeat match goal with
    | H : _ ∈ _ :: _ |- _ => apply elem_of_cons in H; destruct H as [H|H]
    | H : _ ∈ [] |- _ => apply elem_of_nil in H; destruct H
    end.

Lemma time_not_energy (c : string) : is_time c → ¬ is_energy c.
Proof.
  unfold is_time, is_energy, time_names, energy_names.
  generalize (Str.lower (Str.strip c)). intros lc Ht He.
  split_names; congruence.
Qed.

Lemma Building_not_time : ¬ is_time "Building".
Proof.
  intros H. apply (bool_decide_eq_true_2 _) in H. vm_compute in H.
  discriminate.
Qed.

Lemma Building_not_energy : ¬ is_energy "Building".
Proof.
  intros H. apply (bool_decide_eq_true_2 _) in H. vm_compute in H.
  discriminate.
Qed.

Lemma canon_same_label (c1 c2 : string) :
  same_label c1 c2 → canon c1 = canon c2.
Proof.
  unfold canon. intros [->|[[H1 H2]|[H1 H2]]]; [done| |].
  - rewrite !(bool_decide_eq_false_2 (is_energy _))
      by auto using time_not_energy.
    by rewrite !bool_decide_eq_true_2.
  - by rewrite !bool_decide_eq_true_2.
Qed.

Lemma same_label_Building (c1 c2 : string) :
  same_label c1 c2 → c1 = "Building" ↔ c2 = "Building".
Proof.
  pose proof Building_not_time. pose proof Building_not_energy.
  intros [->|[[H1 H2]|[H1 H2]]]; [done| |]; split; intros ->; tauto.
Qed.

Lemma same_labels_standardize (cols1 cols2 : list string) :
  Forall2 same_label cols1 cols2 → standardize cols1 = standardize cols2.
Proof.
  rewrite !standardize_canon.
  induction 1; simpl; f_equal; auto using canon_same_label.
Qed.

Lemma same_labels_index_of (cols1 cols2 : list string) :
  Forall2 same_label cols1 cols2 →
  index_of "Building" cols1 = index_of "Building" cols2.
Proof.
  induction 1 as [|c1 c2 l1 l2 Hc _ IH]; simpl; [done|].
  rewrite IH. apply same_label_Building in Hc.
  repeat case_bool_decide; tauto.
Qed.

Lemma same_labels_has_Building (cols1 cols2 : list string) :
  Forall2 same_label cols1 cols2 →
  "Building" ∈ cols1 ↔ "Building" ∈ cols2.
Proof.
  induction 1 as [|c1 c2 l1 l2 Hc _ IH]; [done|].
  apply same_label_Building in Hc. destruct Hc as [Hc1 Hc2].
  rewrite !elem_of_cons, IH.
  split; (intros [E|?]; [left; symmetry; auto | by right]).
Qed.

(** ** Order of time stamps *)

Ltac ts_cases :=
  unfold before, ts_le, ts_leb in *;
  repeat match goal with
    | |- context [timestamp ?r] => destruct (timestamp r)
    | H : context [timestamp ?r] |- _ => destruct (timestamp r)
    end;
  repeat match goal with
    | H : (_ <=? _)%Z = true |- _ => apply Z.leb_le in H
    | H : (_ <=? _)%Z = false |- _ => apply Z.leb_gt in H
    | |- (_ <=? _)%Z = true => apply Z.leb_le
    | |- (_ <=? _)%Z = false => apply Z.leb_gt
    end;
  try (discriminate || reflexivity || lia).

#[export] Instance before_trans : Transitive before.
Proof. intros x y z Hxy Hyz. ts_cases. Qed.

#[export] Instance before_total : Total before.
Proof.
  intros x y. unfold before, ts_le.
  destruct (ts_leb (timestamp x) (timestamp y)) eqn:E; [by left|right].
  ts_cases.
Qed.

Lemma HdRel_insert (r x : Reading) (l : list Reading) :
  before r x → HdRel before r l → HdRel before r (insert_by_timestamp x l).
Proof.
  intros Hrx [|y l' Hy]; simpl; [by constructor|].
  destruct (ts_leb _ _); by constructor.
Qed.

Lemma insert_by_timestamp_sorted (x : Reading) (l : list Reading) :
  Sorted before l → Sorted before (insert_by_timestamp x l).
Proof.
  induction 1 as [|y l Hl IH Hy]; simpl.
  - by repeat constructor.
  - destruct (ts_leb (timestamp x) (timestamp y)) eqn:E.
    + by repeat constructor.
    + constructor; [done|]. apply HdRel_insert; [|done].
      destruct (total before y x) as [?|H]; [done|].
      unfold before, ts_le in H. congruence.
Qed.

Lemma sort_values_sorted (l : list Reading) : Sorted before (sort_values l).
Proof.
  induction l; simpl; [constructor|].
  by apply insert_by_timestamp_sorted.
Qed.

Lemma insert_by_timestamp_perm (x : Reading) (l : list Reading) :
  insert_by_timestamp x l ≡ₚ x :: l.
Proof.
  induction l as [|y l IH]; simpl; [done|].
  destruct (ts_leb _ _); [done|]. by rewrite IH, Permutation_swap.
Qed.

Lemma sort_values_perm (l : list Reading) : sort_values l ≡ₚ l.
Proof.
  induction l as [|x l IH]; simpl; [done|].
  by rewrite insert_by_timestamp_perm, IH.
Qed.

(** ** The loop over the files *)

Section IngestProperties.

Variable pd : Parsers.

Lemma loop_step_rows (st : loop_state) (f : CsvFile) :
  rows (loop_step pd st f) = rows st ++ option_list (part_of pd f).
Proof.
  unfold loop_step, part_of.
  destruct (try_body pd f) as [[part|cols]|e]; simpl;
    by rewrite ?app_nil_r.
Qed.

Lemma loop_step_bad_files (st : loop_state) (f : CsvFile) :
  bad_files (loop_step pd st f)
  = bad_files st ++ match part_of pd f with Some _ => [] | None => [path f] end.
Proof.
  unfold loop_step, part_of.
  destruct (try_body pd f) as [[part|cols]|e]; simpl;
    by rewrite ?app_nil_r.
Qed.

Lemma foldl_loop_step_rows (files : list CsvFile) (st : loop_state) :
  rows (foldl (loop_step pd) st files) = rows st ++ omap (part_of pd) files.
Proof.
  revert st. induction files as [|f files IH]; intros st; simpl.
  - by rewrite app_nil_r.
  - rewrite IH, loop_step_rows, <- app_assoc. by destruct (part_of pd f).
Qed.

Lemma foldl_loop_step_bad_files (files : list CsvFile) (st : loop_state) :
  bad_files (foldl (loop_step pd) st files)
  = bad_files st
    ++ (path <$> List.filter (λ f, bool_decide (part_of pd f = None)) files).
Proof.
  revert st. induction files as [|f files IH]; intros st; simpl.
  - by rewrite app_nil_r.
  - rewrite IH, loop_step_bad_files, <- app_assoc.
    by destruct (part_of pd f).
Qed.

Lemma loop_rows (files : list CsvFile) :
  rows (loop pd files) = omap (part_of pd) files.
Proof. unfold loop. by rewrite foldl_loop_step_rows. Qed.

Lemma loop_bad_files (files : list CsvFile) :
  bad_files (loop pd files)
  = path <$> List.filter (λ f, bool_decide (part_of pd f = None)) files.
Proof. unfold loop. by rewrite foldl_loop_step_bad_files. Qed.

(** The frame returned for a list of files: the rows the files add,
    in file order, sorted by time stamp. *)
Lemma ingest_files_frame (files : list CsvFile) :
  (ingest_files pd files).1
  = {| index_name := "timestamp";
       columns := ["kWh"; "Building"];
       readings := sort_values (concat (omap (part_of pd) files)) |}.
Proof.
  unfold ingest_files. destruct files as [|f files]; [done|].
  rewrite loop_rows. by destruct (omap (part_of pd) (f :: files)).
Qed.

Lemma ingest_csv_folder_Some (fs : gmap string (list CsvFile))
    (d : string) (files : list CsvFile) :
  fs !! d = Some files →
  ingest_csv_folder pd fs d
  = (Ok (ingest_files pd files).1, (ingest_files pd files).2).
Proof.
  intros H. unfold ingest_csv_folder. rewrite H.
  by destruct (ingest_files pd files).
Qed.

Lemma ingest_csv_folder_Ok (fs : gmap string (list CsvFile))
    (d : string) (df : Frame) (lg : list log_entry) :
  ingest_csv_folder pd fs d = (Ok df, lg) →
  ∃ files, fs !! d = Some files ∧ df = (ingest_files pd files).1.
Proof.
  unfold ingest_csv_folder. destruct (fs !! d) as [files|]; [|done].
  destruct (ingest_files pd files) as [df' lg'] eqn:E. intros [= <- <-].
  exists files. by rewrite E.
Qed.

(** What a turn of the [try] block went through when it added rows. *)
Lemma try_body_Append (f : CsvFile) (part : list Reading) :
  try_body pd f = Ok (Append part) →
  ∃ df b tcol kcol,
    content f = Some df
    ∧ infer_building f df = Ok b
    ∧ "timestamp" ∈ standardize (raw_columns df)
    ∧ "kWh" ∈ standardize (raw_columns df)
    ∧ get_column (standardize (raw_columns df)) (raw_rows df)
        "timestamp" ValueError = Ok tcol
    ∧ get_column (standardize (raw_columns df)) (raw_rows df)
        "kWh" TypeError = Ok kcol
    ∧ part = dropna (zip_with
               (λ t k, {| timestamp := t; kWh := k; Building := b |})
               (to_datetime pd tcol)
               (to_numeric pd kcol)).
Proof.
  unfold try_body, read_csv.
  destruct (content f) as [df|]; [|done]. simpl.
  destruct (infer_building f df) as [b|e] eqn:Eb; [|done]. simpl.
  destruct (decide ("timestamp" ∈ standardize (raw_columns df))) as [Ht|Ht];
    destruct (decide ("kWh" ∈ standardize (raw_columns df))) as [Hk|Hk];
    repeat first [ rewrite (bool_decide_eq_true_2 _ Ht)
                 | rewrite (bool_decide_eq_true_2 _ Hk)
                 | rewrite (bool_decide_eq_false_2 _ Ht)
                 | rewrite (bool_decide_eq_false_2 _ Hk) ];
    simpl; try done.
  destruct (get_column _ _ "timestamp" _) as [tcol|] eqn:Et; [|done]. simpl.
  destruct (get_column _ _ "kWh" _) as [kcol|] eqn:Ek; [|done]. simpl.
  intros [= <-]. by exists df, b, tcol, kcol.
Qed.

Lemma dropna_complete (l : list Reading) : Forall complete (dropna l).
Proof.
  apply Forall_forall. intros r Hr.
  apply list_elem_of_In, filter_In in Hr as [_ Hr].
  unfold notna in Hr. unfold complete.
  destruct (timestamp r); [|done]. split; [done|].
  by destruct (kWh r).
Qed.

Lemma part_of_complete (f : CsvFile) (part : list Reading) :
  part_of pd f = Some part → Forall complete part.
Proof.
  unfold part_of. destruct (try_body pd f) as [[p|]|] eqn:E; try done.
  intros [= <-]. apply try_body_Append in E as (?&?&?&?&_&_&_&_&_&_&->).
  apply dropna_complete.
Qed.

Lemma rows_complete (files : list CsvFile) :
  Forall complete (concat (omap (part_of pd) files)).
Proof.
  apply Forall_concat, Forall_forall. intros part Hp.
  apply list_elem_of_omap in Hp as (f & _ & Hf).
  by eapply part_of_complete.
Qed.

End IngestProperties.

(** ** Ingestion *)

Section IngestTheorems.

Variable pd : Parsers.

(** C7. A path that does not exist makes [ingest_csv_folder] raise
    [FileNotFoundError] and return nothing; for a path that exists it
    returns a frame. *)
Theorem ingest_missing_directory (fs : gmap string (list CsvFile))
    (d : string) :
  (fs !! d = None →
   ingest_csv_folder pd fs d = (Raise FileNotFoundError, []))
  ∧ (is_Some (fs !! d) →
     ∃ df lg, ingest_csv_folder pd fs d = (Ok df, lg)).
Proof.
  split.
  - intros H. unfold ingest_csv_folder. by rewrite H.
  - intros [files H]. rewrite (ingest_csv_folder_Some _ _ _ _ H). eauto.
Qed.

(** C9. When ingestion returns rows, they are in ascending order of
    time stamp and the frame is indexed by ["timestamp"]. *)
Theorem ingest_sorted_indexed (fs : gmap string (list CsvFile))
    (d : string) (df : Frame) (lg : list log_entry) :
  ingest_csv_folder pd fs d = (Ok df, lg) →
  readings df ≠ [] →
  StronglySorted before (readings df)
  ∧ index_name df = "timestamp"
  ∧ columns df = ["kWh"; "Building"].
Proof.
  intros H _. apply ingest_csv_folder_Ok in H as (files & _ & ->).
  rewrite ingest_files_frame. simpl. split; [|done].
  apply Sorted_StronglySorted; [apply _|]. apply sort_values_sorted.
Qed.

Lemma try_body_variant (f1 f2 : CsvFile) :
  file_variant f1 f2 → try_body pd f1 = try_body pd f2.
Proof.
  destruct f1 as [p1 s1 c1], f2 as [p2 s2 c2].
  unfold file_variant. simpl. intros [-> H].
  destruct H as [[cols1 rows1] [cols2 rows2] [Hc Hr]|]; [|done].
  simpl in Hc, Hr. subst rows2.
  unfold try_body, read_csv, infer_building. simpl.
  rewrite (bool_decide_ext _ _ (same_labels_has_Building _ _ Hc)).
  by rewrite (same_labels_index_of _ _ Hc), (same_labels_standardize _ _ Hc).
Qed.

Lemma parts_variant (files1 files2 : list CsvFile) :
  Forall2 file_variant files1 files2 →
  omap (part_of pd) files1 = omap (part_of pd) files2.
Proof.
  intros H. apply list_omap_ext. eapply Forall2_impl; [done|].
  intros f1 f2 Hf. unfold part_of. by rewrite (try_body_variant _ _ Hf).
Qed.

(** C3. Files that differ only in the spelling of the time and energy
    columns (case, surrounding blanks, recognised synonym) are ingested
    to the same frame. *)
Theorem ingest_label_variants (fs1 fs2 : gmap string (list CsvFile))
    (d1 d2 : string) (files1 files2 : list CsvFile) :
  fs1 !! d1 = Some files1 →
  fs2 !! d2 = Some files2 →
  Forall2 file_variant files1 files2 →
  (ingest_csv_folder pd fs1 d1).1 = (ingest_csv_folder pd fs2 d2).1.
Proof.
  intros H1 H2 Hv.
  rewrite (ingest_csv_folder_Some _ _ _ _ H1).
  rewrite (ingest_csv_folder_Some _ _ _ _ H2). simpl.
  by rewrite !ingest_files_frame, (parts_variant _ _ Hv).
Qed.

(** A file and its version under the canonical labels are variants of
    each other. *)
Lemma canonical_variant (f : CsvFile) : file_variant f (canonical f).
Proof.
  split; [done|]. destruct f as [p s [df|]]; simpl; constructor.
  split; [|done]. simpl. apply Forall2_fmap_r, Forall_Forall2_diag.
  apply Forall_forall. intros c _. unfold same_label, canon, compose.
  case_bool_decide as He; [|case_bool_decide as Ht].
  - right. right. split; [done|].
    apply (bool_decide_eq_true_1 _). by vm_compute.
  - right. left. split; [done|].
    apply (bool_decide_eq_true_1 _). by vm_compute.
  - by left.
Qed.

(** C8. A file that lacks one of the two canonical columns once its
    labels are normalised adds no row, is recorded in [bad_files], and
    leaves the ingestion of the other files as it is: the call returns
    the frame it returns without that file. *)
Theorem ingest_skips_missing_columns (fs : gmap string (list CsvFile))
    (d : string) (pre post : list CsvFile) (f : CsvFile) (df : RawFrame) :
  content f = Some df →
  ¬ ("timestamp" ∈ standardize (raw_columns df)
     ∧ "kWh" ∈ standardize (raw_columns df)) →
  part_of pd f = None
  ∧ path f ∈ bad_files (loop pd (pre ++ f :: post))
  ∧ rows (loop pd (pre ++ f :: post)) = rows (loop pd (pre ++ post))
  ∧ (fs !! d = Some (pre ++ f :: post) →
     ∃ lg, ingest_csv_folder pd fs d
           = (Ok (ingest_files pd (pre ++ post)).1, lg)).
Proof.
  intros Hdf Hmiss.
  assert (Hnone : part_of pd f = None).
  { unfold part_of. destruct (try_body pd f) as [[part|]|] eqn:E; try done.
    apply try_body_Append in E as (df' & ? & ? & ? & E & _ & Ht & Hk & _).
    rewrite Hdf in E. injection E as <-. tauto. }
  split; [done|]. split; [|split].
  - rewrite loop_bad_files. apply list_elem_of_fmap. exists f. split; [done|].
    apply list_elem_of_In, filter_In. split.
    + apply in_or_app. right. by left.
    + by apply bool_decide_eq_true_2.
  - rewrite !loop_rows, !omap_app. simpl. by rewrite Hnone.
  - intros H. rewrite (ingest_csv_folder_Some _ _ _ _ H). eexists.
    f_equal. rewrite !ingest_files_frame, !omap_app. simpl.
    by rewrite Hnone.
Qed.

Lemma zip_with_Building (b : cell) (ts : list (option Z))
    (kw : list float64) :
  Forall (λ r, Building r = b)
    (zip_with (λ t k, {| timestamp := t; kWh := k; Building := b |}) ts kw).
Proof.
  revert kw. induction ts as [|t ts IH]; intros [|k kw]; simpl;
    constructor; auto.
Qed.

(** C10. The building column is looked up under the exact label
    ["Building"], before the labels are normalised: a file without a
    column of exactly that label gives the stem of its name to all of
    its rows. *)
Theorem building_from_stem (f : CsvFile) (df : RawFrame)
    (part : list Reading) :
  content f = Some df →
  "Building" ∉ raw_columns df →
  try_body pd f = Ok (Append part) →
  Forall (λ r, Building r = VStr (stem f)) part.
Proof.
  intros Hdf Hno E.
  apply try_body_Append in E as (df' & b & tcol & kcol & E & Hb & _ & _ & _ & _ & ->).
  rewrite Hdf in E. injection E as <-.
  unfold infer_building in Hb. rewrite bool_decide_eq_false_2 in Hb by done.
  injection Hb as <-.
  apply Forall_forall. intros r Hr.
  apply list_elem_of_In, filter_In in Hr as [Hr _].
  apply list_elem_of_In in Hr. revert r Hr. apply Forall_forall.
  apply zip_with_Building.
Qed.

End IngestTheorems.

(** ** The statements above on the sample files *)

Ltac by_computation := vm_compute; first [reflexivity | discriminate].

Ltac decide_label :=
  apply (bool_decide_eq_true_1 _); vm_compute; reflexivity.

Ltac refute_by_computation H :=
  apply (bool_decide_eq_true_2 _) in H; vm_compute in H; discriminate H.

(** The scenario: three rows in time order, the building of [A.csv]
    taken from the file name and that of [B.csv] from its column. *)
Example scenario_cleaned :
  readings Scenario.cleaned
  = [ {| timestamp := Some (Scenario.at_minute 0); kWh := Fin 10;
         Building := VStr "A" |};
      {| timestamp := Some (Scenario.at_minute 30); kWh := Fin 5;
         Building := VStr "Hall" |};
      {| timestamp := Some (Scenario.at_minute 60); kWh := Fin 15;
         Building := VStr "A" |} ].
Proof. by_computation. Qed.

Example standardize_spellings :
  standardize [" Time "; "ENERGY"; "Building"; "note"]
  = ["timestamp"; "kWh"; "Building"; "note"].
Proof. by_computation. Qed.

Lemma ingest_missing_directory_witness :
  ingest_csv_folder Scenario.no_text (Samples.data_dir []) "nowhere"
    = (Raise FileNotFoundError, [])
  ∧ ∃ df lg,
      ingest_csv_folder Scenario.no_text (Samples.data_dir []) "data"
        = (Ok df, lg).
Proof.
  split.
  - apply (proj1 (ingest_missing_directory Scenario.no_text
                    (Samples.data_dir []) "nowhere")).
    by_computation.
  - apply (proj2 (ingest_missing_directory Scenario.no_text
                    (Samples.data_dir []) "data")).
    exists []. by_computation.
Defined.

Lemma ingest_sorted_indexed_witness :
  StronglySorted before (readings Scenario.cleaned)
  ∧ index_name Scenario.cleaned = "timestamp"
  ∧ columns Scenario.cleaned = ["kWh"; "Building"].
Proof.
  apply (ingest_sorted_indexed Scenario.no_text
           (Samples.data_dir [Scenario.A_csv; Scenario.B_csv]) "data"
           Scenario.cleaned
           (ingest_files Scenario.no_text
              [Scenario.A_csv; Scenario.B_csv]).2).
  - by_computation.
  - by_computation.
Defined.

(** C2 as stated fails: a reading of [inf] is read as a float, is not
    missing, and stays in the cleaned frame. *)
Lemma ingest_keeps_infinite_reading :
  ¬ (∀ (pd : Parsers) (fs : gmap string (list CsvFile)) (d : string)
       (df : Frame) (lg : list log_entry),
       ingest_csv_folder pd fs d = (Ok df, lg) →
       Forall (λ r, is_Some (timestamp r) ∧ kWh r ≠ NaN ∧ finite (kWh r))
         (readings df)).
Proof.
  intros H.
  specialize (H Scenario.no_text (Samples.data_dir [Samples.inf_csv]) "data"
    {| index_name := "timestamp"; columns := ["kWh"; "Building"];
       readings := [ {| timestamp := Some 0%Z; kWh := Inf false;
                        Building := VStr "meter" |} ] |}
    [InfoCombined 1 1]).
  assert (E : ingest_csv_folder Scenario.no_text
                (Samples.data_dir [Samples.inf_csv]) "data"
              = (Ok {| index_name := "timestamp";
                       columns := ["kWh"; "Building"];
                       readings := [ {| timestamp := Some 0%Z;
                                        kWh := Inf false;
                                        Building := VStr "meter" |} ] |},
                 [InfoCombined 1 1])) by by_computation.
  apply H in E. inversion E as [|r l (_ & _ & Hfin) _]. exact Hfin.
Qed.

Lemma ingest_label_variants_witness :
  (ingest_csv_folder Scenario.no_text
     (Samples.data_dir [Samples.A_variant_csv]) "data").1
  = (ingest_csv_folder Scenario.no_text
       (Samples.data_dir [Scenario.A_csv]) "data").1.
Proof.
  apply (ingest_label_variants Scenario.no_text
           (Samples.data_dir [Samples.A_variant_csv])
           (Samples.data_dir [Scenario.A_csv]) "data" "data"
           [Samples.A_variant_csv] [Scenario.A_csv]).
  - by_computation.
  - by_computation.
  - constructor; [|constructor]. split; [reflexivity|].
    constructor. split; [|reflexivity].
    constructor; [|constructor; [|constructor]].
    + right. left. split; decide_label.
    + right. right. split; decide_label.
Defined.

Lemma ingest_skips_missing_columns_witness :
  let files := [Scenario.A_csv] ++ Samples.notes_csv :: [Scenario.B_csv] in
  part_of Scenario.no_text Samples.notes_csv = None
  ∧ path Samples.notes_csv ∈ bad_files (loop Scenario.no_text files)
  ∧ rows (loop Scenario.no_text files)
    = rows (loop Scenario.no_text ([Scenario.A_csv] ++ [Scenario.B_csv]))
  ∧ (Samples.data_dir files !! "data" = Some files →
     ∃ lg, ingest_csv_folder Scenario.no_text (Samples.data_dir files) "data"
           = (Ok Scenario.cleaned, lg)).
Proof.
  intros files.
  apply (ingest_skips_missing_columns Scenario.no_text
           (Samples.data_dir files) "data"
           [Scenario.A_csv] [Scenario.B_csv] Samples.notes_csv
           {| raw_columns := ["when"; "kWh"];
              raw_rows := [ [VInt 0; VInt 1] ] |}).
  - reflexivity.
  - intros [H _]. refute_by_computation H.
Defined.

Lemma building_from_stem_witness :
  Forall (λ r, Building r = VStr "C")
    [ {| timestamp := Some 0%Z; kWh := Fin (inject_Z 7);
         Building := VStr "C" |} ].
Proof.
  apply (building_from_stem Scenario.no_text Samples.C_csv
           {| raw_columns := ["date"; "kw"; "building"];
              raw_rows := [ [VInt 0; VInt 7; VStr "Hall"] ] |}).
  - reflexivity.
  - intros H. refute_by_computation H.
  - by_computation.
Defined.

(** ** Aggregation *)

Example scenario_daily_totals :
  calculate_daily_totals Scenario.cleaned
  = {| t_index_name := Some "date"; t_columns := ["daily_kWh"];
       t_rows := [(VInt 19723, [Fin 30])] |}.
Proof. by_computation. Qed.

Example scenario_building_summary :
  building_wise_summary Scenario.cleaned
  = {| t_index_name := Some "Building";
       t_columns := ["mean_kWh"; "min_kWh"; "max_kWh"; "total_kWh"];
       t_rows := [ (VStr "A", [Fin (25 # 2); Fin 10; Fin 15; Fin 25]);
                   (VStr "Hall", [Fin 5; Fin 5; Fin 5; Fin 5]) ] |}.
Proof. by_computation. Qed.

Example scenario_peak :
  find_peak_time Scenario.cleaned
  = Ok (PeakSeries (Some (Scenario.at_minute 60)) (Fin 15)).
Proof. by_computation. Qed.

(** On a frame that has rows, the column of the daily totals is
    ["daily_kWh"]. *)
Lemma daily_totals_columns (df : Frame) :
  empty df = false →
  t_columns (calculate_daily_totals df) = ["daily_kWh"].
Proof. intros H. unfold calculate_daily_totals. by rewrite H. Qed.

Lemma daily_totals_empty (df : Frame) :
  empty df = true →
  calculate_daily_totals df
  = {| t_index_name := None; t_columns := ["kWh"]; t_rows := [] |}.
Proof. intros H. unfold calculate_daily_totals. by rewrite H. Qed.

(** C5. On the empty frame [calculate_daily_totals] returns an empty
    table, but its column is ["kWh"], not ["daily_kWh"]. *)
Theorem daily_totals_empty_frame :
  calculate_daily_totals empty_frame
  = {| t_index_name := None; t_columns := ["kWh"]; t_rows := [] |}
  ∧ "daily_kWh" ∉ t_columns (calculate_daily_totals empty_frame).
Proof.
  split; [reflexivity|]. intros H. refute_by_computation H.
Qed.

(** On a frame that has rows and a ["Building"] column the summary holds,
    for each building, the mean, the least, the largest and the sum of
    its values, each rounded to 3 digits, under the renamed labels. *)
Lemma building_wise_summary_rows (df : Frame) :
  empty df = false →
  "Building" ∈ columns df →
  building_wise_summary df
  = {| t_index_name := Some "Building";
       t_columns := ["mean_kWh"; "min_kWh"; "max_kWh"; "total_kWh"];
       t_rows :=
         (λ b,
            let g := kWh <$> List.filter
                       (λ r, bool_decide (Building r = b)) (readings df) in
            (b, [round3 (fl_mean g); round3 (fl_min g);
                 round3 (fl_max g); round3 (fl_sum g)]))
         <$> group_keys (readings df) |}.
Proof.
  intros He Hb. unfold building_wise_summary, groupby_agg.
  rewrite He, (bool_decide_eq_true_2 _ Hb). simpl.
  f_equal. by rewrite <- list_fmap_compose.
Qed.

(** C6. On the empty frame, and on a frame without a ["Building"]
    column, [building_wise_summary] returns an empty table whose columns
    are ["mean"], ["min"], ["max"], ["sum"]: the renamed labels are
    missing. *)
Theorem building_summary_empty_frame :
  building_wise_summary empty_frame
  = {| t_index_name := None; t_columns := ["mean"; "min"; "max"; "sum"];
       t_rows := [] |}
  ∧ building_wise_summary Samples.unlabelled
    = {| t_index_name := None; t_columns := ["mean"; "min"; "max"; "sum"];
         t_rows := [] |}
  ∧ t_columns (building_wise_summary empty_frame)
    ≠ ["mean_kWh"; "min_kWh"; "max_kWh"; "total_kWh"].
Proof. split; [|split]; by_computation. Qed.

(** *** The largest value of a column *)

Lemma Qlt_bool_true (p q : Q) : Qlt_bool p q = true ↔ (p < q)%Q.
Proof.
  unfold Qlt_bool. rewrite negb_true_iff. split.
  - intros H. apply Qnot_le_lt. rewrite <- Qle_bool_iff. congruence.
  - intros H. apply not_true_is_false. rewrite Qle_bool_iff.
    by apply Qlt_not_le.
Qed.

Lemma Qlt_bool_false (p q : Q) : Qlt_bool p q = false ↔ (q <= p)%Q.
Proof.
  unfold Qlt_bool. rewrite negb_false_iff. apply Qle_bool_iff.
Qed.

Lemma fl_ltb_irrefl (x : float64) : fl_ltb x x = false.
Proof.
  destruct x as [|[]|q]; simpl; try done.
  apply Qlt_bool_false, Qle_refl.
Qed.

(** [a < b] and [z <= a] give [z <= b]. *)
Lemma fl_ltb_le_lt (a b z : float64) :
  fl_ltb a b = true → fl_ltb a z = false → fl_ltb b z = false.
Proof.
  destruct a as [|[]|p], b as [|[]|q], z as [|[]|r]; simpl; try done.
  rewrite Qlt_bool_true, !Qlt_bool_false. lra.
Qed.

Lemma running_max_ge (p : list float64) (m z : float64) :
  fl_ltb m z = false →
  fl_ltb (foldl (λ m y, if fl_ltb m y then y else m) m p) z = false.
Proof.
  revert m. induction p as [|y p IH]; intros m Hz; simpl; [done|].
  apply IH. destruct (fl_ltb m y) eqn:E; [|done].
  by apply (fl_ltb_le_lt m).
Qed.

Lemma running_max_upper_bound (p : list float64) (m : float64) :
  Forall (λ y, fl_ltb (foldl (λ m y, if fl_ltb m y then y else m) m p) y
               = false) (m :: p).
Proof.
  constructor; [apply running_max_ge, fl_ltb_irrefl|].
  revert m. induction p as [|y p IH]; intros m; simpl; constructor.
  - apply running_max_ge. destruct (fl_ltb m y) eqn:E; [|done].
    apply fl_ltb_irrefl.
  - apply IH.
Qed.

(** No value of the column exceeds [fl_max]. *)
Lemma fl_max_upper_bound (l : list float64) (x : float64) :
  x ∈ l → fl_ltb (fl_max l) x = false.
Proof.
  intros Hx. destruct x as [|b|q] eqn:Ex.
  { by destruct (fl_max l) as [|[]|]. }
  all: assert (Hp : In x (present l))
         by (apply filter_In; subst x; split;
             [by apply list_elem_of_In|done]).
  all: unfold fl_max; destruct (present l) as [|m p]; [done|].
  all: pose proof (running_max_upper_bound p m) as H.
  all: rewrite List.Forall_forall in H; rewrite <- Ex; by apply H.
Qed.

(** *** The peak reading *)

Lemma find_peak_time_empty (df : Frame) :
  empty df = true → find_peak_time df = Ok EmptySeries.
Proof. intros H. unfold find_peak_time. by rewrite H. Qed.

Lemma argmax_from_elem (l : list Reading) (best : Reading) :
  argmax_from best l ∈ best :: l.
Proof.
  revert best. induction l as [|r l IH]; intros best; simpl.
  - by left.
  - destruct (fl_ltb _ _).
    + right. apply IH.
    + specialize (IH best). apply elem_of_cons in IH as [->|?].
      * by left.
      * by do 2 right.
Qed.

Lemma argmax_from_kWh (l : list Reading) (best : Reading) :
  kWh (argmax_from best l)
  = foldl (λ m y, if fl_ltb m y then y else m) (kWh best) (kWh <$> l).
Proof.
  revert best. induction l as [|r l IH]; intros best; simpl; [done|].
  destruct (fl_ltb _ _); apply IH.
Qed.

Lemma present_kWh (l : list Reading) :
  present (kWh <$> l)
  = kWh <$> List.filter (λ r, negb (isnan (kWh r))) l.
Proof.
  unfold present. induction l as [|r l IH]; [done|].
  rewrite fmap_cons. cbn [List.filter]. rewrite IH.
  by destruct (isnan (kWh r)).
Qed.

(** [find_peak_time] on a frame with a value that is not missing: it
    does not raise; the label it returns is that of the first row [m]
    holding the largest value; the value it returns is that of the first
    row that carries this label. *)
Lemma find_peak_time_returns (df : Frame) :
  empty df = false →
  (∃ r, r ∈ readings df ∧ kWh r ≠ NaN) →
  ∃ m first,
    m ∈ readings df ∧ kWh m = fl_max (kWh <$> readings df)
    ∧ first ∈ readings df ∧ timestamp first = timestamp m
    ∧ find_peak_time df = Ok (PeakSeries (timestamp m) (kWh first)).
Proof.
  intros He (r & Hr & Hnan). unfold find_peak_time, idxmax. rewrite He.
  unfold fl_max. rewrite present_kWh.
  destruct (List.filter (λ r, negb (isnan (kWh r))) (readings df))
    as [|r0 l'] eqn:El.
  { exfalso. assert (H : In r (List.filter
      (λ r, negb (isnan (kWh r))) (readings df))).
    { apply filter_In. split; [by apply list_elem_of_In|].
      by destruct (kWh r). }
    by rewrite El in H. }
  simpl. set (m := argmax_from r0 l').
  assert (Hm : m ∈ readings df).
  { pose proof (argmax_from_elem l' r0) as H. rewrite <- El in H.
    apply list_elem_of_In, filter_In in H as [H _]. by apply list_elem_of_In. }
  unfold loc_kWh.
  destruct (List.filter (λ r, bool_decide (timestamp r = timestamp m))
              (readings df)) as [|first rest] eqn:Ef.
  { exfalso. assert (H : In m (List.filter
      (λ r, bool_decide (timestamp r = timestamp m)) (readings df))).
    { apply filter_In. split; [by apply list_elem_of_In|].
      by apply bool_decide_eq_true_2. }
    by rewrite Ef in H. }
  assert (Hf : In first (List.filter
    (λ r, bool_decide (timestamp r = timestamp m)) (readings df))).
  { rewrite Ef. by left. }
  apply filter_In in Hf as [Hf1 Hf2]. apply bool_decide_eq_true_1 in Hf2.
  exists m, first. split; [done|]. split; [apply argmax_from_kWh|].
  split; [by apply list_elem_of_In|]. split; [done|].
  simpl. by destruct rest.
Qed.

Lemma filter_key_absent (l : list Reading) (t : option Z) :
  t ∉ timestamp <$> l →
  List.filter (λ r, bool_decide (timestamp r = t)) l = [].
Proof.
  induction l as [|r l IH]; simpl; [done|]. intros H.
  apply not_elem_of_cons in H as [Hr Hl].
  rewrite bool_decide_eq_false_2 by congruence. by apply IH.
Qed.

Lemma filter_unique_key (l : list Reading) (m : Reading) :
  NoDup (timestamp <$> l) → m ∈ l →
  List.filter (λ r, bool_decide (timestamp r = timestamp m)) l = [m].
Proof.
  induction l as [|r l IH]; intros Hnd Hm; [by apply elem_of_nil in Hm|].
  simpl in Hnd. apply NoDup_cons in Hnd as [Hr Hnd]. simpl.
  apply elem_of_cons in Hm as [->|Hm].
  - rewrite bool_decide_eq_true_2 by done. f_equal.
    by apply filter_key_absent.
  - rewrite bool_decide_eq_false_2; [by apply IH|].
    intros E. apply Hr. rewrite E. by apply list_elem_of_fmap_2.
Qed.

(** When no two rows share a time stamp, the value returned is the
    largest value of the column. *)
Lemma find_peak_time_unique_index (df : Frame) :
  empty df = false →
  (∃ r, r ∈ readings df ∧ kWh r ≠ NaN) →
  NoDup (timestamp <$> readings df) →
  ∃ m, m ∈ readings df
       ∧ find_peak_time df
         = Ok (PeakSeries (timestamp m) (fl_max (kWh <$> readings df))).
Proof.
  intros He Hr Hnd.
  destruct (find_peak_time_returns df He Hr)
    as (m & first & Hm & Hmax & Hf & Ht & E).
  exists m. split; [done|]. rewrite E, <- Hmax. do 2 f_equal.
  pose proof (filter_unique_key _ _ Hnd Hm) as Hu.
  assert (Hin : In first (List.filter
    (λ r, bool_decide (timestamp r = timestamp m)) (readings df))).
  { apply filter_In. split; [by apply list_elem_of_In|].
    by apply bool_decide_eq_true_2. }
  rewrite Hu in Hin. by destruct Hin as [<-|[]].
Qed.

(** C1. Two readings taken at the same instant, 5 and 10 kWh:
    [find_peak_time] returns the instant with the value 5, the first
    value under that time stamp, though the largest value is 10. *)
Theorem find_peak_time_same_instant :
  readings Samples.same_instant
  = [ {| timestamp := Some 0%Z; kWh := Fin 5; Building := VStr "Gym" |};
      {| timestamp := Some 0%Z; kWh := Fin 10; Building := VStr "Lab" |} ]
  ∧ find_peak_time Samples.same_instant = Ok (PeakSeries (Some 0%Z) (Fin 5))
  ∧ fl_max (kWh <$> readings Samples.same_instant) = Fin 10.
Proof. split; [|split]; by_computation. Qed.

(** * Further properties *)

(** ** Normalisation of the labels *)

Lemma canon_energy (c : string) : is_energy c → canon c = "kWh".
Proof. intros H. unfold canon. by rewrite bool_decide_eq_true_2. Qed.

Lemma canon_time (c : string) : is_time c → canon c = "timestamp".
Proof.
  intros H. unfold canon.
  rewrite bool_decide_eq_false_2 by by apply time_not_energy.
  by rewrite bool_decide_eq_true_2.
Qed.

Lemma canon_idempotent (c : string) : canon (canon c) = canon c.
Proof.
  destruct (decide (is_energy c)) as [He|He].
  { rewrite (canon_energy c He). by vm_compute. }
  destruct (decide (is_time c)) as [Ht|Ht].
  { rewrite (canon_time c Ht). by vm_compute. }
  by rewrite (canon_id c Ht He), (canon_id c Ht He).
Qed.

(** X1. Normalising the labels of a header twice is the same as
    normalising them once. *)
Theorem standardize_idempotent (cols : list string) :
  standardize (standardize cols) = standardize cols.
Proof.
  rewrite !standardize_canon, <- list_fmap_compose.
  apply list_fmap_ext. intros i c _. apply canon_idempotent.
Qed.

(** ** Bookkeeping of the loop *)

Section LoopProperties.

Variable pd : Parsers.

Lemma loop_step_log (st : loop_state) (f : CsvFile) :
  log (loop_step pd st f) = log st ++ file_entries pd f.
Proof.
  unfold loop_step, file_entries.
  destruct (try_body pd f) as [[part|cols]|e]; simpl;
    by rewrite ?app_nil_r.
Qed.

Lemma foldl_loop_step_log (files : list CsvFile) (st : loop_state) :
  log (foldl (loop_step pd) st files)
  = log st ++ concat (file_entries pd <$> files).
Proof.
  revert st. induction files as [|f files IH]; intros st; simpl.
  - by rewrite app_nil_r.
  - by rewrite IH, loop_step_log, <- app_assoc.
Qed.

Lemma loop_log (files : list CsvFile) :
  log (loop pd files) = concat (file_entries pd <$> files).
Proof. unfold loop. by rewrite foldl_loop_step_log. Qed.

Lemma file_entries_None (f : CsvFile) :
  part_of pd f = None → length (file_entries pd f) = 1.
Proof.
  unfold part_of, file_entries.
  by destruct (try_body pd f) as [[part|cols]|e].
Qed.

(** X2. Every file of the directory is accounted for once: it either
    adds a part to [rows] or has its path in [bad_files], and the paths
    in [bad_files] are those of the files that added nothing, in the
    order of the listing. *)
Theorem every_file_accounted (files : list CsvFile) :
  length (rows (loop pd files)) + length (bad_files (loop pd files))
    = length files
  ∧ bad_files (loop pd files)
    = path <$> List.filter (λ f, bool_decide (part_of pd f = None)) files.
Proof.
  split; [|apply loop_bad_files].
  rewrite loop_rows, loop_bad_files, length_fmap.
  induction files as [|f files IH]; [done|].
  cbn [omap list_omap List.filter length].
  destruct (part_of pd f).
  - rewrite bool_decide_eq_false_2 by done. rewrite <- IH. reflexivity.
  - rewrite bool_decide_eq_true_2 by done. cbn [length].
    rewrite <- IH. apply Nat.add_succ_r.
Qed.

(** X3. A file with a ["Building"] column gives the first value of
    that column to all of its rows, whatever the other rows hold in
    that column. *)
Theorem building_from_first_value (f : CsvFile) (df : RawFrame)
    (j : nat) (row : list cell) (others : list (list cell))
    (part : list Reading) :
  content f = Some df →
  index_of "Building" (raw_columns df) = Some j →
  raw_rows df = row :: others →
  try_body pd f = Ok (Append part) →
  Forall (λ r, Building r = field j row) part.
Proof.
  intros Hdf Hj Hrows E.
  apply try_body_Append in E
    as (df' & b & tcol & kcol & E & Hb & _ & _ & _ & _ & ->).
  rewrite Hdf in E. injection E as <-.
  unfold infer_building in Hb. rewrite Hj, Hrows in Hb.
  destruct (bool_decide _) eqn:Hin in Hb.
  - injection Hb as <-. apply Forall_forall. intros r Hr.
    apply list_elem_of_In, filter_In in Hr as [Hr _].
    apply list_elem_of_In in Hr. revert r Hr. apply Forall_forall.
    apply zip_with_Building.
  - exfalso. apply bool_decide_eq_false_1 in Hin. apply Hin.
    clear -Hj. revert j Hj.
    induction (raw_columns df) as [|c cols IH]; intros j Hj; [done|].
    simpl in Hj. case_bool_decide as Hc.
    + subst c. by left.
    + right. destruct (index_of "Building" cols) as [j'|]; [|done].
      by apply (IH j').
Qed.

(** X4. A file that holds a header with a ["Building"] column and no
    row fails in the [try] block with [IndexError]: it is recorded in
    [bad_files] and logged as a failure, whatever its other columns. *)
Theorem header_only_with_Building (f : CsvFile) (df : RawFrame)
    (st : loop_state) :
  content f = Some df →
  "Building" ∈ raw_columns df →
  raw_rows df = [] →
  try_body pd f = Raise IndexError
  ∧ loop_step pd st f
    = {| rows := rows st;
         bad_files := bad_files st ++ [path f];
         log := log st ++ [LogException (path f) IndexError] |}.
Proof.
  intros Hdf Hb Hrows.
  assert (E : try_body pd f = Raise IndexError).
  { unfold try_body, read_csv, infer_building. rewrite Hdf. simpl.
    rewrite (bool_decide_eq_true_2 _ Hb), Hrows.
    by destruct (index_of _ _). }
  split; [done|]. unfold loop_step. by rewrite E.
Qed.

(** X5. When no file of a directory that lists files adds a part, the
    call returns the empty frame; its log holds one entry for each file,
    in order, and then the error entry, and every path is in
    [bad_files]. *)
Theorem no_valid_data (files : list CsvFile) :
  files ≠ [] →
  Forall (λ f, part_of pd f = None) files →
  ingest_files pd files
    = (empty_frame,
       concat (file_entries pd <$> files) ++ [ErrorNoValidData])
  ∧ Forall (λ f, length (file_entries pd f) = 1) files
  ∧ bad_files (loop pd files) = path <$> files.
Proof.
  intros Hne Hall.
  assert (Hrows : rows (loop pd files) = []).
  { rewrite loop_rows. clear Hne.
    induction Hall as [|f files Hf _ IH]; [done|]. simpl. by rewrite Hf. }
  split; [|split].
  - unfold ingest_files. destruct files as [|f files]; [done|].
    by rewrite Hrows, loop_log.
  - eapply Forall_impl; [done|]. apply file_entries_None.
  - rewrite loop_bad_files. f_equal. clear Hne Hrows.
    induction Hall as [|f files Hf _ IH]; [done|]. simpl.
    by rewrite (bool_decide_eq_true_2 _ Hf), IH.
Qed.

Lemma concat_Permutation_parts (l1 l2 : list (list Reading)) :
  l1 ≡ₚ l2 → concat l1 ≡ₚ concat l2.
Proof.
  induction 1 as [|x l l' _ IH|x y l|l l' l'' _ IH1 _ IH2]; simpl.
  - done.
  - by rewrite IH.
  - rewrite !app_assoc. f_equiv. apply Permutation_app_comm.
  - by rewrite IH1.
Qed.

Lemma ts_leb_antisym (a b : option Z) :
  ts_leb a b = true → ts_leb b a = true → a = b.
Proof.
  destruct a as [x|], b as [y|]; simpl; try done.
  intros H1%Z.leb_le H2%Z.leb_le. f_equal. lia.
Qed.

Lemma NoDup_timestamp_eq (l : list Reading) (x y : Reading) :
  NoDup (timestamp <$> l) → x ∈ l → y ∈ l →
  timestamp x = timestamp y → x = y.
Proof.
  induction l as [|r l IH]; intros Hnd Hx Hy E; [by apply elem_of_nil in Hx|].
  simpl in Hnd. apply NoDup_cons in Hnd as [Hr Hnd].
  apply elem_of_cons in Hx as [->|Hx]; apply elem_of_cons in Hy as [->|Hy].
  - done.
  - exfalso. apply Hr. rewrite E. by apply list_elem_of_fmap_2.
  - exfalso. apply Hr. rewrite <- E. by apply list_elem_of_fmap_2.
  - by apply IH.
Qed.

(** X6. The order in which the directory lists its files does not
    change which rows are returned; when no two returned rows share a
    time stamp it does not change the returned frame at all. *)
Theorem ingest_files_any_order (files files' : list CsvFile) :
  files ≡ₚ files' →
  readings (ingest_files pd files).1 ≡ₚ readings (ingest_files pd files').1
  ∧ (NoDup (timestamp <$> readings (ingest_files pd files).1) →
     (ingest_files pd files).1 = (ingest_files pd files').1).
Proof.
  intros Hp. rewrite !ingest_files_frame. simpl.
  assert (Hperm : sort_values (concat (omap (part_of pd) files))
                  ≡ₚ sort_values (concat (omap (part_of pd) files'))).
  { rewrite !sort_values_perm. apply concat_Permutation_parts.
    by rewrite Hp. }
  split; [done|]. intros Hnd. f_equal.
  apply (StronglySorted_unique_strong before); [| | |done].
  - intros x y Hx Hy Hxy Hyx. rewrite <- Hperm in Hy.
    apply (NoDup_timestamp_eq _ x y Hnd Hx Hy).
    by apply ts_leb_antisym.
  - apply Sorted_StronglySorted; [apply _|]. apply sort_values_sorted.
  - apply Sorted_StronglySorted; [apply _|]. apply sort_values_sorted.
Qed.

(** X7. [find_peak_time] does not raise on a frame returned by
    ingestion: on a frame without rows it returns the empty series, and
    otherwise the time stamp of a row holding the largest value together
    with the value of a row that carries this time stamp. *)
Theorem find_peak_time_after_ingest (fs : gmap string (list CsvFile))
    (d : string) (df : Frame) (lg : list log_entry) :
  ingest_csv_folder pd fs d = (Ok df, lg) →
  (readings df = [] ∧ find_peak_time df = Ok EmptySeries)
  ∨ (∃ m first,
       m ∈ readings df ∧ kWh m = fl_max (kWh <$> readings df)
       ∧ first ∈ readings df ∧ timestamp first = timestamp m
       ∧ find_peak_time df = Ok (PeakSeries (timestamp m) (kWh first))).
Proof.
  intros H. apply ingest_csv_folder_Ok in H as (files & _ & ->).
  pose proof (rows_complete pd files) as Hc.
  rewrite <- (sort_values_perm (concat _)) in Hc.
  rewrite ingest_files_frame.
  set (df := {| index_name := "timestamp"; columns := ["kWh"; "Building"];
                readings := sort_values (concat (omap (part_of pd) files)) |}).
  change (sort_values (concat (omap (part_of pd) files)))
    with (readings df) in Hc.
  destruct (readings df) as [|r l] eqn:E.
  - left. split; [done|]. apply find_peak_time_empty.
    unfold empty. by rewrite E.
  - right. rewrite <- E. apply find_peak_time_returns.
    + unfold empty. by rewrite E.
    + exists r. rewrite E. split; [by left|].
      apply Forall_cons in Hc as [[_ Hr] _]. done.
Qed.

End LoopProperties.

(** ** Columns that occur once, or more than once *)

Lemma filter_imap_length (f : nat → string → nat * string)
    (cols : list string) (name : string) :
  (∀ i c, (f i c).2 = c) →
  length (filter (λ jc : nat * string, jc.2 = name) (imap f cols))
  = length (filter (λ c, c = name) cols).
Proof.
  revert f. induction cols as [|c cols IH]; intros f Hf; [done|].
  cbn [imap]. rewrite !filter_cons, Hf.
  destruct (decide (c = name)); cbn [length]; rewrite IH; auto.
  all: intros i c'; apply Hf.
Qed.

Lemma filter_eq_twice (l : list string) (i j : nat) (x : string) :
  l !! i = Some x → l !! j = Some x → i ≠ j →
  2 ≤ length (filter (λ c, c = x) l).
Proof.
  assert (Hone : ∀ l' k, l' !! k = Some x →
            1 ≤ length (filter (λ c, c = x) l')).
  { intros l' k Hk. apply list_elem_of_lookup_2 in Hk.
    assert (Hin : x ∈ filter (λ c, c = x) l')
      by by apply list_elem_of_filter.
    destruct (filter _ l'); [by apply elem_of_nil in Hin|]. simpl. lia. }
  revert i j. induction l as [|y l IH]; intros i j Hi Hj Hne; [done|].
  rewrite filter_cons. destruct i as [|i], j as [|j]; simpl in Hi, Hj.
  - done.
  - injection Hi as ->. rewrite decide_True by done.
    specialize (Hone l j Hj). simpl. lia.
  - injection Hj as ->. rewrite decide_True by done.
    specialize (Hone l i Hi). simpl. lia.
  - assert (H2 : 2 ≤ length (filter (λ c, c = x) l))
      by (apply (IH i j); auto).
    destruct (decide (y = x)); simpl; lia.
Qed.

Lemma get_column_repeated (cols : list string) (rows : list (list cell))
    (name : string) (e : exn) :
  2 ≤ length (filter (λ c, c = name) cols) →
  get_column cols rows name e = Raise e.
Proof.
  intros H. unfold get_column.
  rewrite <- (filter_imap_length pair) in H by done.
  destruct (filter _ (imap pair cols)) as [|[j c] [|jc l]]; simpl in H;
    try lia; done.
Qed.

Lemma get_column_once (cols : list string) (rows : list (list cell))
    (name : string) (e : exn) :
  NoDup cols → name ∈ cols →
  ∃ j, get_column cols rows name e = Ok (field j <$> rows).
Proof.
  intros Hnd Hin. unfold get_column.
  assert (H : length (filter (λ jc : nat * string, jc.2 = name)
                        (imap pair cols)) = 1).
  { rewrite (filter_imap_length pair) by done.
    clear rows e. induction cols as [|c cols IH]; [by apply elem_of_nil in Hin|].
    apply NoDup_cons in Hnd as [Hc Hnd]. rewrite filter_cons.
    apply elem_of_cons in Hin as [->|Hin].
    - rewrite decide_True by done. simpl. f_equal.
      destruct (filter (λ c0, c0 = c) cols) as [|c' l] eqn:E; [done|].
      exfalso. assert (Hc' : c' ∈ filter (λ c0, c0 = c) cols)
        by (rewrite E; by left).
      apply list_elem_of_filter in Hc' as [-> ?]. done.
    - rewrite decide_False; [by apply IH|]. intros ->. done. }
  destruct (filter _ (imap pair cols)) as [|[j c] [|jc l]]; simpl in H;
    try lia. by exists j.
Qed.

Section ColumnProperties.

Variable pd : Parsers.

(** X8. A file in which two columns are spellings of the time column
    is not ingested: once both are renamed to ["timestamp"] the
    conversion of that column raises, so the file adds no row. *)
Theorem two_time_columns_fail (f : CsvFile) (df : RawFrame) (b : cell)
    (i j : nat) (c1 c2 ce : string) :
  content f = Some df →
  infer_building f df = Ok b →
  raw_columns df !! i = Some c1 →
  raw_columns df !! j = Some c2 →
  i ≠ j →
  is_time c1 → is_time c2 →
  ce ∈ raw_columns df → is_energy ce →
  try_body pd f = Raise ValueError ∧ part_of pd f = None.
Proof.
  intros Hdf Hb Hi Hj Hne H1 H2 Hce He.
  assert (E : try_body pd f = Raise ValueError).
  { unfold try_body, read_csv. rewrite Hdf. simpl. rewrite Hb. simpl.
    assert (Hi' : standardize (raw_columns df) !! i = Some "timestamp").
    { rewrite standardize_canon, list_lookup_fmap, Hi. simpl.
      by rewrite canon_time. }
    assert (Hj' : standardize (raw_columns df) !! j = Some "timestamp").
    { rewrite standardize_canon, list_lookup_fmap, Hj. simpl.
      by rewrite canon_time. }
    assert (Hk : "kWh" ∈ standardize (raw_columns df)).
    { rewrite standardize_canon. apply list_elem_of_fmap.
      exists ce. by rewrite canon_energy. }
    rewrite (bool_decide_eq_true_2 _ (list_elem_of_lookup_2 _ _ _ Hi')).
    rewrite (bool_decide_eq_true_2 _ Hk). simpl.
    rewrite (get_column_repeated _ _ "timestamp")
      by by apply (filter_eq_twice _ i j).
    done. }
  split; [done|]. unfold part_of. by rewrite E.
Qed.

(** X9. A file that holds a header with both canonical columns, each
    once, no ["Building"] column and no row counts as valid data: on its
    own it makes the call return a frame without rows and log the
    summary of 0 rows from 1 file, not the error of no valid data. *)
Theorem header_only_is_valid (f : CsvFile) (df : RawFrame) :
  content f = Some df →
  "Building" ∉ raw_columns df →
  raw_rows df = [] →
  NoDup (standardize (raw_columns df)) →
  "timestamp" ∈ standardize (raw_columns df) →
  "kWh" ∈ standardize (raw_columns df) →
  try_body pd f = Ok (Append [])
  ∧ ingest_files pd [f]
    = ({| index_name := "timestamp"; columns := ["kWh"; "Building"];
          readings := [] |},
       [InfoCombined 0 1]).
Proof.
  intros Hdf Hb Hrows Hnd Ht Hk.
  assert (E : try_body pd f = Ok (Append [])).
  { unfold try_body, read_csv, infer_building. rewrite Hdf. simpl.
    rewrite (bool_decide_eq_false_2 _ Hb). simpl.
    rewrite (bool_decide_eq_true_2 _ Ht), (bool_decide_eq_true_2 _ Hk).
    simpl. rewrite Hrows.
    destruct (get_column_once _ [] "timestamp" ValueError Hnd Ht) as [jt ->].
    destruct (get_column_once _ [] "kWh" TypeError Hnd Hk) as [jk ->].
    done. }
  split; [done|].
  unfold ingest_files, loop. simpl. unfold loop_step. by rewrite E.
Qed.

End ColumnProperties.

(** ** Daily totals *)

Lemma foldl_min_le_start (ts : list Z) (t : Z) : (foldl Z.min t ts ≤ t)%Z.
Proof.
  revert t. induction ts as [|y ts IH]; intros t; simpl; [lia|].
  etrans; [apply IH|]. lia.
Qed.

Lemma foldl_min_lower_bound (ts : list Z) (t x : Z) :
  x ∈ t :: ts → (foldl Z.min t ts ≤ x)%Z.
Proof.
  intros Hx. apply elem_of_cons in Hx as [->|Hx]; [apply foldl_min_le_start|].
  revert t. induction ts as [|y ts IH]; intros t; [by apply elem_of_nil in Hx|].
  simpl. apply elem_of_cons in Hx as [->|Hx]; [|by apply IH].
  etrans; [apply foldl_min_le_start|]. lia.
Qed.

Lemma foldl_max_ge_start (ts : list Z) (t : Z) : (t ≤ foldl Z.max t ts)%Z.
Proof.
  revert t. induction ts as [|y ts IH]; intros t; simpl; [lia|].
  etrans; [|apply IH]. lia.
Qed.

Lemma foldl_max_upper_bound (ts : list Z) (t x : Z) :
  x ∈ t :: ts → (x ≤ foldl Z.max t ts)%Z.
Proof.
  intros Hx. apply elem_of_cons in Hx as [->|Hx]; [apply foldl_max_ge_start|].
  revert t. induction ts as [|y ts IH]; intros t; [by apply elem_of_nil in Hx|].
  simpl. apply elem_of_cons in Hx as [->|Hx]; [|by apply IH].
  etrans; [|apply foldl_max_ge_start]. lia.
Qed.

Lemma day_of_mono (a b : Z) : (a ≤ b)%Z → (day_of a ≤ day_of b)%Z.
Proof. intros H. apply Z.div_le_mono; [done|exact H]. Qed.

Lemma filter_none (p : Reading → bool) (l : list Reading) :
  (∀ r, r ∈ l → p r = false) → List.filter p l = [].
Proof.
  induction l as [|r l IH]; intros H; simpl; [done|].
  rewrite (H r) by by left. apply IH. intros r' Hr'. apply H. by right.
Qed.

Lemma foldl_min_elem (ts : list Z) (t : Z) : foldl Z.min t ts ∈ t :: ts.
Proof.
  revert t. induction ts as [|y ts IH]; intros t; simpl; [by left|].
  specialize (IH (Z.min t y)). apply elem_of_cons in IH as [E|IH].
  - rewrite E. destruct (Z.min_spec t y) as [[_ ->]|[_ ->]].
    + by left.
    + right. by left.
  - by do 2 right.
Qed.

Lemma foldl_max_elem (ts : list Z) (t : Z) : foldl Z.max t ts ∈ t :: ts.
Proof.
  revert t. induction ts as [|y ts IH]; intros t; simpl; [by left|].
  specialize (IH (Z.max t y)). apply elem_of_cons in IH as [E|IH].
  - rewrite E. destruct (Z.max_spec t y) as [[_ ->]|[_ ->]].
    + right. by left.
    + by left.
  - by do 2 right.
Qed.

Lemma Qred_plus_inject_Z (a b : Z) :
  Qred (inject_Z a + inject_Z b) = inject_Z (a + b).
Proof.
  rewrite <- inject_Z_plus. apply Qred_identity. simpl. apply Z.gcd_1_r.
Qed.

Lemma foldl_fl_add_whole (l : list Reading) (a : Z) :
  Forall is_whole l →
  foldl fl_add (Fin (inject_Z a)) (kWh <$> l)
  = Fin (inject_Z (a + whole_total l)).
Proof.
  revert a. induction l as [|r l IH]; intros a Hl; simpl.
  - by rewrite Z.add_0_r.
  - apply Forall_cons in Hl as [Hr Hl]. rewrite Hr. simpl.
    rewrite Qred_plus_inject_Z, (IH _ Hl). by rewrite Z.add_assoc.
Qed.

(** On whole numbers [fl_sum] is the sum of the numbers. *)
Lemma fl_sum_whole (l : list Reading) :
  Forall is_whole l →
  fl_sum (kWh <$> l) = Fin (inject_Z (whole_total l)).
Proof.
  intros Hl. unfold fl_sum.
  assert (Hp : present (kWh <$> l) = kWh <$> l).
  { rewrite present_kWh. f_equal.
    induction Hl as [|r l' Hr _ IH]; [done|]. simpl.
    rewrite Hr. simpl. by rewrite IH. }
  rewrite Hp. apply (foldl_fl_add_whole l 0 Hl).
Qed.

Lemma filter_whole (p : Reading → bool) (l : list Reading) :
  Forall is_whole l → Forall is_whole (List.filter p l).
Proof.
  intros Hl. apply Forall_forall. intros r Hr.
  apply list_elem_of_In, filter_In in Hr as [Hr _].
  rewrite Forall_forall in Hl. by apply Hl, list_elem_of_In.
Qed.

(** X10. In the daily totals of a frame with rows, each with a time
    stamp inside the calendar and a whole number of kWh, the numbers
    small enough to be added without loss, the day of every reading has
    a row, and the row holds the sum of the numbers read on that day. *)
Theorem daily_totals_row (df : Frame) (r : Reading) (t : Z) :
  empty df = false →
  Forall in_calendar (readings df) →
  Forall is_whole (readings df) →
  (whole_magnitude (readings df) < 2 ^ 53)%Z →
  r ∈ readings df →
  timestamp r = Some t →
  (VInt (day_of t),
   [Fin (inject_Z
      (whole_total (List.filter (on_day (day_of t)) (readings df))))])
  ∈ t_rows (calculate_daily_totals df).
Proof.
  intros He _ Hw _ Hr Ht. unfold calculate_daily_totals. rewrite He. simpl.
  unfold resample_day_sum.
  assert (Hin : t ∈ omap timestamp (readings df)).
  { apply list_elem_of_omap. by exists r. }
  destruct (omap timestamp (readings df)) as [|t0 ts]; [by apply elem_of_nil in Hin|].
  pose proof (day_of_mono _ _ (foldl_min_lower_bound ts t0 t Hin)) as Hlo.
  pose proof (day_of_mono _ _ (foldl_max_upper_bound ts t0 t Hin)) as Hhi.
  set (first := day_of (foldl Z.min t0 ts)) in *.
  set (last := day_of (foldl Z.max t0 ts)) in *.
  apply list_elem_of_fmap. exists (Z.to_nat (day_of t - first)). split.
  - simpl. replace (first + Z.of_nat (Z.to_nat (day_of t - first)))%Z
      with (day_of t) by lia.
    do 2 f_equal. symmetry.
    apply (fl_sum_whole (List.filter (on_day (day_of t)) (readings df))).
    by apply filter_whole.
  - apply list_elem_of_In, in_seq. lia.
Qed.

(** X11. The rows of the daily totals of a frame with rows, each with a
    time stamp inside the calendar, are labelled by the days from the
    day of the earliest reading to the day of the latest one, each day
    once and none left out; a day between the two on which nothing was
    read has a row, with the total 0. *)
Theorem daily_totals_calendar (df : Frame) :
  empty df = false →
  Forall in_calendar (readings df) →
  ∃ rmin rmax tmin tmax,
    rmin ∈ readings df ∧ timestamp rmin = Some tmin
    ∧ rmax ∈ readings df ∧ timestamp rmax = Some tmax
    ∧ (∀ r t, r ∈ readings df → timestamp r = Some t →
         (tmin ≤ t ≤ tmax)%Z)
    ∧ (t_rows (calculate_daily_totals df)).*1
      = (λ i : nat, VInt (day_of tmin + Z.of_nat i))
          <$> seq 0 (Z.to_nat (day_of tmax - day_of tmin + 1))
    ∧ (∀ d, (day_of tmin ≤ d ≤ day_of tmax)%Z →
         (∀ r, r ∈ readings df → on_day d r = false) →
         (VInt d, [Fin 0]) ∈ t_rows (calculate_daily_totals df)).
Proof.
  intros He Hcal. unfold calculate_daily_totals. rewrite He. simpl.
  unfold resample_day_sum.
  destruct (omap timestamp (readings df)) as [|t0 ts] eqn:Eo.
  { exfalso. unfold empty in He.
    destruct (readings df) as [|r l]; [done|].
    apply Forall_cons in Hcal as [(t & Ht & _) _].
    simpl in Eo. by rewrite Ht in Eo. }
  assert (Hmin : foldl Z.min t0 ts ∈ omap timestamp (readings df))
    by (rewrite Eo; apply foldl_min_elem).
  assert (Hmax : foldl Z.max t0 ts ∈ omap timestamp (readings df))
    by (rewrite Eo; apply foldl_max_elem).
  apply list_elem_of_omap in Hmin as (rmin & Hrmin & Htmin).
  apply list_elem_of_omap in Hmax as (rmax & Hrmax & Htmax).
  set (tmin := foldl Z.min t0 ts) in *.
  set (tmax := foldl Z.max t0 ts) in *.
  exists rmin, rmax, tmin, tmax. do 4 (split; [done|]).
  split; [|split].
  - intros r t Hr Ht.
    assert (Hin : t ∈ t0 :: ts).
    { rewrite <- Eo. apply list_elem_of_omap. by exists r. }
    split; [by apply foldl_min_lower_bound|by apply foldl_max_upper_bound].
  - by rewrite <- list_fmap_compose.
  - intros d Hd Hnone. apply list_elem_of_fmap.
    exists (Z.to_nat (d - day_of tmin)). split.
    + replace (day_of tmin + Z.of_nat (Z.to_nat (d - day_of tmin)))%Z
        with d by lia.
      do 2 f_equal. change (Fin 0 = fl_sum (kWh <$>
        List.filter (on_day d) (readings df))).
      by rewrite filter_none.
    + apply list_elem_of_In, in_seq. lia.
Qed.

(** ** Summary by building *)

(** X12. The summary of a frame with rows and a ["Building"] column,
    the buildings being text or missing, has one row for each building
    of the frame, a missing building excepted: no building twice, none
    left out, and four values in each row. *)
Theorem building_summary_labels (df : Frame) :
  empty df = false →
  "Building" ∈ columns df →
  Forall (λ r, match Building r with
               | VStr _ | VFloat NaN => True
               | _ => False
               end) (readings df) →
  NoDup (t_rows (building_wise_summary df)).*1
  ∧ (∀ b, b ∈ (t_rows (building_wise_summary df)).*1
          ↔ key_isna b = false ∧ ∃ r, r ∈ readings df ∧ Building r = b)
  ∧ Forall (λ kv, length kv.2 = 4) (t_rows (building_wise_summary df)).
Proof.
  intros He Hb _. rewrite (building_wise_summary_rows df He Hb). simpl.
  rewrite <- list_fmap_compose.
  rewrite (list_fmap_ext _ id _ (λ _ _ _, eq_refl)), list_fmap_id.
  unfold group_keys.
  split; [|split].
  - rewrite merge_sort_Permutation. apply NoDup_remove_dups.
  - intros b. rewrite merge_sort_Permutation, elem_of_remove_dups.
    rewrite list_elem_of_In, filter_In, <- list_elem_of_In.
    rewrite list_elem_of_fmap, negb_true_iff.
    split.
    + intros [(r & -> & Hr) H2]. split; [done|]. eauto.
    + intros [H2 (r & Hr & <-)]. split; [eauto|done].
  - apply Forall_fmap, Forall_forall. by intros.
Qed.

(** ** The peak reading, continued *)

Lemma fl_ltb_trans (a b c : float64) :
  fl_ltb a b = true → fl_ltb b c = true → fl_ltb a c = true.
Proof.
  destruct a as [|[]|p], b as [|[]|q], c as [|[]|r]; simpl; try done.
  rewrite !Qlt_bool_true. lra.
Qed.

(** [r <= best] and [best < m] give [r < m]. *)
Lemma fl_ltb_le_lt_trans (r best m : float64) :
  r ≠ NaN → fl_ltb best r = false → fl_ltb best m = true →
  fl_ltb r m = true.
Proof.
  destruct r as [|[]|p], best as [|[]|q], m as [|[]|s]; simpl; try done.
  rewrite Qlt_bool_false, !Qlt_bool_true. lra.
Qed.

(** The row [argmax_from] picks comes with strictly smaller values
    before it. *)
Lemma argmax_from_split (l : list Reading) (best : Reading) :
  Forall (λ r, kWh r ≠ NaN) (best :: l) →
  ∃ pre post,
    best :: l = pre ++ argmax_from best l :: post
    ∧ Forall (λ r, fl_ltb (kWh r) (kWh (argmax_from best l)) = true) pre.
Proof.
  revert best. induction l as [|r l IH]; intros best Hnan; simpl.
  { by exists [], []. }
  apply Forall_cons in Hnan as [Hb Hnan].
  pose proof Hnan as Hrl. apply Forall_cons in Hnan as [Hr Hl].
  destruct (fl_ltb (kWh best) (kWh r)) eqn:E.
  - destruct (IH r Hrl) as (pre & post & Hsplit & Hpre).
    exists (best :: pre), post. split; [by rewrite Hsplit|].
    constructor; [|done].
    destruct pre as [|x pre]; simpl in Hsplit.
    + injection Hsplit as <- _. done.
    + injection Hsplit as <- _. apply Forall_cons in Hpre as [Hx _].
      by apply (fl_ltb_trans _ (kWh r)).
  - assert (Hbl : Forall (λ r, kWh r ≠ NaN) (best :: l))
      by by constructor.
    destruct (IH best Hbl) as (pre & post & Hsplit & Hpre).
    destruct pre as [|x pre]; simpl in Hsplit.
    + injection Hsplit as Hm ->. exists [], (r :: post).
      split; [by rewrite <- Hm|done].
    + injection Hsplit as <- Hl'. exists (best :: r :: pre), post.
      split; [simpl; do 2 f_equal; exact Hl'|]. apply Forall_cons in Hpre as [Hx Hpre].
      constructor; [done|]. constructor; [|done].
      by apply (fl_ltb_le_lt_trans _ (kWh best)).
Qed.

Lemma filter_split (p : Reading → bool) (l pre post : list Reading)
    (m : Reading) :
  List.filter p l = pre ++ m :: post →
  ∃ pre' post',
    l = pre' ++ m :: post' ∧ List.filter p pre' = pre.
Proof.
  revert pre. induction l as [|x l IH]; intros pre H; simpl in H.
  { by destruct pre. }
  destruct (p x) eqn:E.
  - destruct pre as [|y pre]; simpl in H.
    + injection H as -> _. by exists [], l.
    + injection H as -> H. destruct (IH pre H) as (pre' & post' & -> & <-).
      exists (y :: pre'), post'. simpl. by rewrite E.
  - destruct (IH pre H) as (pre' & post' & -> & <-).
    exists (x :: pre'), post'. simpl. by rewrite E.
Qed.

Lemma find_peak_time_idx (df : Frame) (r0 : Reading) (l' : list Reading) :
  empty df = false →
  List.filter (λ r, negb (isnan (kWh r))) (readings df) = r0 :: l' →
  ∃ v, find_peak_time df
       = Ok (PeakSeries (timestamp (argmax_from r0 l')) v).
Proof.
  intros He El. unfold find_peak_time, idxmax. rewrite He, El. simpl.
  set (m := argmax_from r0 l').
  assert (Hm : In m (readings df)).
  { pose proof (argmax_from_elem l' r0) as H. rewrite <- El in H.
    by apply list_elem_of_In, filter_In in H as [H _]. }
  unfold loc_kWh.
  destruct (List.filter (λ r, bool_decide (timestamp r = timestamp m))
              (readings df)) as [|first rest] eqn:Ef.
  { exfalso. assert (H : In m (List.filter
      (λ r, bool_decide (timestamp r = timestamp m)) (readings df))).
    { apply filter_In. split; [done|]. by apply bool_decide_eq_true_2. }
    by rewrite Ef in H. }
  exists (kWh first). simpl. by destruct rest.
Qed.

(** X13. On a frame with rows whose values are all missing,
    [find_peak_time] raises instead of returning a series. *)
Theorem find_peak_time_all_missing (df : Frame) :
  empty df = false →
  Forall (λ r, kWh r = NaN) (readings df) →
  ∃ e, find_peak_time df = Raise e.
Proof.
  intros He Hall. unfold find_peak_time, idxmax. rewrite He.
  rewrite filter_none; [by exists ValueError|].
  intros r Hr. rewrite Forall_forall in Hall. by rewrite (Hall r Hr).
Qed.

(** X14. The time stamp [find_peak_time] returns is that of the first
    row holding the largest value: every row before it has a strictly
    smaller value or a missing one, and no row has a larger value. *)
Theorem find_peak_time_first_maximum (df : Frame) :
  empty df = false →
  (∃ r, r ∈ readings df ∧ kWh r ≠ NaN) →
  ∃ pre m post v,
    readings df = pre ++ m :: post
    ∧ kWh m ≠ NaN
    ∧ Forall (λ r, kWh r = NaN ∨ fl_ltb (kWh r) (kWh m) = true) pre
    ∧ Forall (λ r, fl_ltb (kWh m) (kWh r) = false) (readings df)
    ∧ find_peak_time df = Ok (PeakSeries (timestamp m) v).
Proof.
  intros He (r & Hr & Hnan).
  destruct (List.filter (λ r, negb (isnan (kWh r))) (readings df))
    as [|r0 l'] eqn:El.
  { exfalso. assert (H : In r (List.filter
      (λ r, negb (isnan (kWh r))) (readings df))).
    { apply filter_In. split; [by apply list_elem_of_In|].
      by destruct (kWh r). }
    by rewrite El in H. }
  assert (Hpresent : Forall (λ r, kWh r ≠ NaN) (r0 :: l')).
  { rewrite <- El. apply Forall_forall. intros x Hx.
    apply list_elem_of_In, filter_In in Hx as [_ Hx]. by destruct (kWh x). }
  destruct (argmax_from_split l' r0 Hpresent) as (pre & post & Hsplit & Hpre).
  destruct (find_peak_time_idx df r0 l' He El) as [v Hv].
  set (m := argmax_from r0 l') in *.
  rewrite <- El in Hsplit.
  destruct (filter_split _ _ _ _ _ Hsplit) as (pre' & post' & Hdf & Hf).
  exists pre', m, post', v. split; [done|]. split; [|split; [|split]].
  - rewrite Forall_forall in Hpresent. apply Hpresent, argmax_from_elem.
  - apply Forall_forall. intros x Hx.
    destruct (isnan (kWh x)) eqn:Ex.
    + left. by destruct (kWh x).
    + right. rewrite Forall_forall in Hpre. apply Hpre.
      rewrite <- Hf. apply list_elem_of_In, filter_In.
      split; [by apply list_elem_of_In|]. by rewrite Ex.
  - assert (Hmax : kWh m = fl_max (kWh <$> readings df)).
    { unfold fl_max. rewrite present_kWh, El. apply argmax_from_kWh. }
    apply Forall_forall. intros x Hx. rewrite Hmax.
    apply fl_max_upper_bound. by apply list_elem_of_fmap_2.
  - done.
Qed.


(** ** The points of the dashboard *)

Section SortBy.

Variable leb : Reading → Reading → bool.
Hypothesis leb_total : ∀ x y, leb x y = true ∨ leb y x = true.

Lemma insert_by_perm (x : Reading) (l : list Reading) :
  insert_by leb x l ≡ₚ x :: l.
Proof.
  induction l as [|y l IH]; simpl; [done|].
  destruct (leb x y); [done|]. by rewrite IH, Permutation_swap.
Qed.

Lemma sort_by_perm (l : list Reading) : sort_by leb l ≡ₚ l.
Proof.
  induction l as [|x l IH]; simpl; [done|].
  by rewrite insert_by_perm, IH.
Qed.

Lemma insert_by_sorted (x : Reading) (l : list Reading) :
  Sorted (λ a b, leb a b = true) l →
  Sorted (λ a b, leb a b = true) (insert_by leb x l).
Proof.
  induction 1 as [|y l Hl IH Hy]; simpl.
  - by repeat constructor.
  - destruct (leb x y) eqn:E.
    + by repeat constructor.
    + constructor; [done|].
      assert (Hyx : leb y x = true).
      { destruct (leb_total x y) as [H|H]; [congruence|done]. }
      destruct Hy as [|z l' Hz]; simpl; [by constructor|].
      destruct (leb x z); by constructor.
Qed.

Lemma sort_by_sorted (l : list Reading) :
  Sorted (λ a b, leb a b = true) (sort_by leb l).
Proof.
  induction l; simpl; [constructor|]. by apply insert_by_sorted.
Qed.

End SortBy.

(** [c <= b] and [b <= a] give [c <= a]. *)
Lemma fl_ltb_false_trans (a b c : float64) :
  b ≠ NaN → fl_ltb a b = false → fl_ltb b c = false → fl_ltb a c = false.
Proof.
  destruct a as [|[]|p], b as [|[]|q], c as [|[]|r]; simpl; try done.
  rewrite !Qlt_bool_false. lra.
Qed.

Lemma fl_ltb_asym (a b : float64) : fl_ltb a b = true → fl_ltb b a = false.
Proof.
  destruct a as [|[]|p], b as [|[]|q]; simpl; try done.
  rewrite Qlt_bool_true, Qlt_bool_false. lra.
Qed.

Lemma kWh_desc_leb_total (x y : Reading) :
  kWh_desc_leb x y = true ∨ kWh_desc_leb y x = true.
Proof.
  unfold kWh_desc_leb.
  destruct (isnan (kWh y)) eqn:Ey; [by left|].
  destruct (isnan (kWh x)) eqn:Ex; [by right|]. simpl.
  destruct (fl_ltb (kWh x) (kWh y)) eqn:E; [right|by left].
  by rewrite (fl_ltb_asym _ _ E).
Qed.

#[export] Instance kWh_desc_trans : Transitive kWh_desc.
Proof.
  intros a b c. unfold kWh_desc, kWh_desc_leb.
  destruct (isnan (kWh c)) eqn:Ec; [done|]. simpl.
  destruct (isnan (kWh b)) eqn:Eb; [done|]. simpl.
  destruct (isnan (kWh a)) eqn:Ea; [done|]. simpl.
  rewrite !negb_true_iff. intros Hab Hbc.
  apply (fl_ltb_false_trans _ (kWh b)); [|done..].
  by destruct (kWh b).
Qed.

Lemma sorted_desc (l : list Reading) :
  StronglySorted kWh_desc (sort_by kWh_desc_leb l).
Proof.
  apply Sorted_StronglySorted; [apply _|].
  apply sort_by_sorted, kWh_desc_leb_total.
Qed.

(** X16. The points of the scatter plot are the rows with the largest
    values: at most 100 rows of the frame, all of it when it has fewer,
    in descending order of value, and no row left out has a larger value
    than a row that is kept (a missing value counts as smallest). *)
Theorem top_points_largest (df : Frame) :
  length (top_points df) = Nat.min 100 (length (readings df))
  ∧ StronglySorted kWh_desc (top_points df)
  ∧ ∃ rest,
      top_points df ++ rest ≡ₚ readings df
      ∧ ∀ r r', r ∈ top_points df → r' ∈ rest →
          kWh r' = NaN
          ∨ (kWh r ≠ NaN ∧ fl_ltb (kWh r) (kWh r') = false).
Proof.
  unfold top_points.
  pose proof (sorted_desc (readings df)) as Hs.
  pose proof (sort_by_perm kWh_desc_leb (readings df)) as Hp.
  rewrite <- (take_drop 100 (sort_by kWh_desc_leb (readings df))) in Hs, Hp.
  split; [|split].
  - rewrite length_take. f_equal. apply Permutation_length.
    apply sort_by_perm.
  - by apply StronglySorted_app_1_l in Hs.
  - exists (drop 100 (sort_by kWh_desc_leb (readings df))).
    split; [done|]. intros r r' Hr Hr'.
    pose proof (StronglySorted_app_1_elem_of _ _ _ _ _ Hs Hr Hr') as H.
    unfold kWh_desc, kWh_desc_leb in H.
    destruct (kWh r') as [|b'|q'] eqn:E'; [by left|right..].
    all: simpl in H; apply andb_true_iff in H as [H1 H2].
    all: apply negb_true_iff in H2; split; [|done].
    all: by destruct (kWh r).
Qed.

Lemma key_same_refl (b : cell) : key_same b b = true.
Proof.
  unfold key_same, pandas_eq.
  destruct b as [n|[|[]|q]|s]; simpl; try done.
  - rewrite orb_false_r. apply Qeq_bool_iff. reflexivity.
  - rewrite orb_false_r. apply Qeq_bool_iff. reflexivity.
  - rewrite orb_false_r. by apply bool_decide_eq_true_2.
Qed.

Lemma pandas_eq_text (s : string) (b : cell) :
  pandas_eq (VStr s) b = true ↔ b = VStr s.
Proof.
  destruct b as [n|x|t]; simpl; try (split; done).
  rewrite bool_decide_eq_true. split; congruence.
Qed.

Lemma pandas_eq_missing (b : cell) : pandas_eq (VFloat NaN) b = false.
Proof. by destruct b as [n|[|[]|q]|t]. Qed.

Lemma unique_step_NoDup (seen : list cell) (l : list cell) :
  NoDup seen →
  NoDup (foldl (λ seen b,
           if existsb (key_same b) seen then seen else seen ++ [b]) seen l).
Proof.
  revert seen. induction l as [|b l IH]; intros seen Hnd; simpl; [done|].
  apply IH. destruct (existsb (key_same b) seen) eqn:E; [done|].
  apply NoDup_app. split; [done|]. split; [|apply NoDup_singleton].
  intros x Hx Hb. apply list_elem_of_singleton in Hb as ->.
  assert (H : existsb (key_same b) seen = true).
  { apply existsb_exists. exists b. split; [by apply list_elem_of_In|].
    apply key_same_refl. }
  congruence.
Qed.

Lemma unique_step_mono (seen : list cell) (l : list cell) (x : cell) :
  x ∈ seen →
  x ∈ foldl (λ seen b,
        if existsb (key_same b) seen then seen else seen ++ [b]) seen l.
Proof.
  revert seen. induction l as [|b l IH]; intros seen Hx; simpl; [done|].
  apply IH. destruct (existsb (key_same b) seen); [done|].
  apply elem_of_app. by left.
Qed.

Lemma unique_step_text (seen : list cell) (l : list cell) (s : string) :
  VStr s ∈ l →
  VStr s ∈ foldl (λ seen b,
        if existsb (key_same b) seen then seen else seen ++ [b]) seen l.
Proof.
  revert seen. induction l as [|b l IH]; intros seen Hs; [by apply elem_of_nil in Hs|].
  simpl. apply elem_of_cons in Hs as [<-|Hs]; [|by apply IH].
  apply unique_step_mono.
  destruct (existsb (key_same (VStr s)) seen) eqn:E.
  - apply existsb_exists in E as (y & Hy & E).
    unfold key_same in E. simpl in E. rewrite orb_false_r in E.
    apply pandas_eq_text in E as ->. by apply list_elem_of_In.
  - apply elem_of_app. right. by left.
Qed.

(** X17. With a ["Building"] column the scatter plot has one series
    for each label, no label twice; a point whose building is text lies
    in the series of that building and in no other; a point whose
    building is missing lies in no series, so it is not drawn; and every
    point drawn is one of the top points. *)
Theorem scatter_series_by_building (df : Frame) :
  "Building" ∈ columns df →
  NoDup (scatter_series df).*1
  ∧ (∀ r s, r ∈ top_points df → Building r = VStr s →
       (∃ pts, (Some (VStr s), pts) ∈ scatter_series df ∧ r ∈ pts)
       ∧ (∀ b pts, (b, pts) ∈ scatter_series df → r ∈ pts →
            b = Some (VStr s)))
  ∧ (∀ r b pts, r ∈ top_points df → Building r = VFloat NaN →
       (b, pts) ∈ scatter_series df → r ∉ pts)
  ∧ (∀ r b pts, (b, pts) ∈ scatter_series df → r ∈ pts →
       r ∈ top_points df).
Proof.
  intros Hb. unfold scatter_series. rewrite (bool_decide_eq_true_2 _ Hb).
  set (top := top_points df).
  assert (Hin : ∀ r b pts,
    (b, pts) ∈ (λ b, (Some b, List.filter (λ r, pandas_eq (Building r) b) top))
                 <$> unique (Building <$> top) →
    r ∈ pts →
    ∃ b', b = Some b' ∧ r ∈ top ∧ pandas_eq (Building r) b' = true).
  { intros r b pts H Hr. apply list_elem_of_fmap in H as (b' & E & _).
    injection E as -> ->. exists b'. split; [done|].
    apply list_elem_of_In, filter_In in Hr as [Hr1 Hr2].
    by apply list_elem_of_In in Hr1. }
  split; [|split; [|split]].
  - rewrite <- list_fmap_compose.
    change (NoDup (Some <$> unique (Building <$> top))).
    apply (NoDup_fmap_2 _). apply unique_step_NoDup, NoDup_nil_2.
  - intros r s Hr Hs. split.
    + exists (List.filter (λ r, pandas_eq (Building r) (VStr s)) top). split.
      * apply list_elem_of_fmap. exists (VStr s). split; [done|].
        apply unique_step_text. rewrite <- Hs. by apply list_elem_of_fmap_2.
      * apply list_elem_of_In, filter_In. split; [by apply list_elem_of_In|].
        rewrite Hs. by apply pandas_eq_text.
    + intros b pts H Hpts. destruct (Hin r b pts H Hpts) as (b' & -> & _ & E).
      rewrite Hs in E. by apply pandas_eq_text in E as ->.
  - intros r b pts Hr Hs H Hpts.
    destruct (Hin r b pts H Hpts) as (b' & -> & _ & E).
    rewrite Hs, pandas_eq_missing in E. done.
  - intros r b pts H Hpts. by destruct (Hin r b pts H Hpts) as (b' & _ & ? & _).
Qed.

(** ** The further properties on the sample files *)

Ltac in_list := apply list_elem_of_In; vm_compute; auto 10.

Lemma building_from_first_value_witness :
  Forall (λ r, Building r = VStr "Hall")
    [ {| timestamp := Some 0%Z; kWh := Fin (inject_Z 5);
         Building := VStr "Hall" |};
      {| timestamp := Some 1%Z; kWh := Fin (inject_Z 6);
         Building := VStr "Hall" |} ].
Proof.
  apply (building_from_first_value Scenario.no_text Cases.mixed_csv
           {| raw_columns := ["timestamp"; "kWh"; "Building"];
              raw_rows := [ [VInt 0; VInt 5; VStr "Hall"];
                            [VInt 1; VInt 6; VStr "Annex"] ] |}
           2 [VInt 0; VInt 5; VStr "Hall"]
           [ [VInt 1; VInt 6; VStr "Annex"] ]).
  - reflexivity.
  - by_computation.
  - reflexivity.
  - by_computation.
Defined.

Lemma header_only_with_Building_witness :
  try_body Scenario.no_text Cases.header_Building_csv = Raise IndexError
  ∧ loop_step Scenario.no_text
      {| rows := []; bad_files := []; log := [] |} Cases.header_Building_csv
    = {| rows := [];
         bad_files := [] ++ ["data/empty_hall.csv"];
         log := [] ++ [LogException "data/empty_hall.csv" IndexError] |}.
Proof.
  apply (header_only_with_Building Scenario.no_text Cases.header_Building_csv
           {| raw_columns := ["timestamp"; "kWh"; "Building"];
              raw_rows := [] |}
           {| rows := []; bad_files := []; log := [] |}).
  - reflexivity.
  - decide_label.
  - reflexivity.
Defined.

Lemma no_valid_data_witness :
  let files := [Samples.notes_csv; Cases.broken_csv] in
  ingest_files Scenario.no_text files
    = (empty_frame,
       concat (file_entries Scenario.no_text <$> files) ++ [ErrorNoValidData])
  ∧ Forall (λ f, length (file_entries Scenario.no_text f) = 1) files
  ∧ bad_files (loop Scenario.no_text files) = path <$> files.
Proof.
  intros files.
  apply (no_valid_data Scenario.no_text files).
  - discriminate.
  - repeat constructor.
Defined.

Lemma ingest_files_any_order_witness :
  readings (ingest_files Scenario.no_text [Scenario.A_csv; Scenario.B_csv]).1
  ≡ₚ readings (ingest_files Scenario.no_text
                 [Scenario.B_csv; Scenario.A_csv]).1
  ∧ (NoDup (timestamp <$> readings
       (ingest_files Scenario.no_text [Scenario.A_csv; Scenario.B_csv]).1) →
     (ingest_files Scenario.no_text [Scenario.A_csv; Scenario.B_csv]).1
     = (ingest_files Scenario.no_text [Scenario.B_csv; Scenario.A_csv]).1).
Proof.
  apply (ingest_files_any_order Scenario.no_text
           [Scenario.A_csv; Scenario.B_csv] [Scenario.B_csv; Scenario.A_csv]).
  apply Permutation_swap.
Defined.

Lemma find_peak_time_after_ingest_witness :
  (readings Scenario.cleaned = []
   ∧ find_peak_time Scenario.cleaned = Ok EmptySeries)
  ∨ (∃ m first,
       m ∈ readings Scenario.cleaned
       ∧ kWh m = fl_max (kWh <$> readings Scenario.cleaned)
       ∧ first ∈ readings Scenario.cleaned
       ∧ timestamp first = timestamp m
       ∧ find_peak_time Scenario.cleaned
         = Ok (PeakSeries (timestamp m) (kWh first))).
Proof.
  apply (find_peak_time_after_ingest Scenario.no_text
           (Samples.data_dir [Scenario.A_csv; Scenario.B_csv]) "data"
           Scenario.cleaned
           (ingest_files Scenario.no_text
              [Scenario.A_csv; Scenario.B_csv]).2).
  by_computation.
Defined.

Lemma two_time_columns_fail_witness :
  try_body Scenario.no_text Cases.twice_time_csv = Raise ValueError
  ∧ part_of Scenario.no_text Cases.twice_time_csv = None.
Proof.
  apply (two_time_columns_fail Scenario.no_text Cases.twice_time_csv
           {| raw_columns := ["time"; "Date"; "kWh"];
              raw_rows := [ [VInt 0; VInt 1; VInt 5] ] |}
           (VStr "twice") 0 1 "time" "Date" "kWh").
  - reflexivity.
  - by_computation.
  - reflexivity.
  - reflexivity.
  - discriminate.
  - decide_label.
  - decide_label.
  - decide_label.
  - decide_label.
Defined.

Lemma header_only_is_valid_witness :
  try_body Scenario.no_text Cases.header_csv = Ok (Append [])
  ∧ ingest_files Scenario.no_text [Cases.header_csv]
    = ({| index_name := "timestamp"; columns := ["kWh"; "Building"];
          readings := [] |},
       [InfoCombined 0 1]).
Proof.
  apply (header_only_is_valid Scenario.no_text Cases.header_csv
           {| raw_columns := ["timestamp"; "kWh"]; raw_rows := [] |}).
  - reflexivity.
  - intros H. refute_by_computation H.
  - reflexivity.
  - decide_label.
  - decide_label.
  - decide_label.
Defined.

Ltac calendar_rows :=
  repeat (constructor;
          [eexists; split; [reflexivity|split; by vm_compute]|]);
  constructor.

Lemma daily_totals_row_witness :
  (VInt (day_of (Scenario.at_minute 30)),
   [Fin (inject_Z
      (whole_total (List.filter (on_day (day_of (Scenario.at_minute 30)))
                      (readings Scenario.cleaned))))])
  ∈ t_rows (calculate_daily_totals Scenario.cleaned).
Proof.
  apply (daily_totals_row Scenario.cleaned
           {| timestamp := Some (Scenario.at_minute 30); kWh := Fin 5;
              Building := VStr "Hall" |}).
  - by_computation.
  - rewrite scenario_cleaned. calendar_rows.
  - rewrite scenario_cleaned. repeat (constructor; [reflexivity|]).
    constructor.
  - by vm_compute.
  - in_list.
  - reflexivity.
Defined.

(** The three readings of the scenario fall on one day and add up to
    30. *)
Example scenario_day_total :
  whole_total (List.filter (on_day (day_of (Scenario.at_minute 30)))
                 (readings Scenario.cleaned)) = 30%Z.
Proof. by_computation. Qed.

Lemma daily_totals_calendar_witness :
  ∃ rmin rmax tmin tmax,
    rmin ∈ readings Cases.gapped ∧ timestamp rmin = Some tmin
    ∧ rmax ∈ readings Cases.gapped ∧ timestamp rmax = Some tmax
    ∧ (∀ r t, r ∈ readings Cases.gapped → timestamp r = Some t →
         (tmin ≤ t ≤ tmax)%Z)
    ∧ (t_rows (calculate_daily_totals Cases.gapped)).*1
      = (λ i : nat, VInt (day_of tmin + Z.of_nat i))
          <$> seq 0 (Z.to_nat (day_of tmax - day_of tmin + 1))
    ∧ (∀ d, (day_of tmin ≤ d ≤ day_of tmax)%Z →
         (∀ r, r ∈ readings Cases.gapped → on_day d r = false) →
         (VInt d, [Fin 0]) ∈ t_rows (calculate_daily_totals Cases.gapped)).
Proof.
  apply (daily_totals_calendar Cases.gapped).
  - by_computation.
  - calendar_rows.
Defined.

Example gapped_daily_totals :
  t_rows (calculate_daily_totals Cases.gapped)
  = [ (VInt 0, [Fin 4]); (VInt 1, [Fin 0]); (VInt 2, [Fin 6]) ].
Proof. by_computation. Qed.

Lemma building_summary_labels_witness :
  NoDup (t_rows (building_wise_summary Scenario.cleaned)).*1
  ∧ (∀ b, b ∈ (t_rows (building_wise_summary Scenario.cleaned)).*1
          ↔ key_isna b = false
            ∧ ∃ r, r ∈ readings Scenario.cleaned ∧ Building r = b)
  ∧ Forall (λ kv, length kv.2 = 4)
      (t_rows (building_wise_summary Scenario.cleaned)).
Proof.
  apply (building_summary_labels Scenario.cleaned).
  - by_computation.
  - decide_label.
  - rewrite scenario_cleaned. repeat constructor.
Defined.

Lemma find_peak_time_all_missing_witness :
  ∃ e, find_peak_time Cases.all_missing = Raise e.
Proof.
  apply (find_peak_time_all_missing Cases.all_missing).
  - by_computation.
  - repeat constructor.
Defined.

Lemma find_peak_time_first_maximum_witness :
  ∃ pre m post v,
    readings Samples.same_instant = pre ++ m :: post
    ∧ kWh m ≠ NaN
    ∧ Forall (λ r, kWh r = NaN ∨ fl_ltb (kWh r) (kWh m) = true) pre
    ∧ Forall (λ r, fl_ltb (kWh m) (kWh r) = false)
        (readings Samples.same_instant)
    ∧ find_peak_time Samples.same_instant
      = Ok (PeakSeries (timestamp m) v).
Proof.
  apply (find_peak_time_first_maximum Samples.same_instant).
  - by_computation.
  - exists {| timestamp := Some 0%Z; kWh := Fin (inject_Z 5);
              Building := VStr "Gym" |}.
    split; [in_list|discriminate].
Defined.


Lemma scatter_series_by_building_witness :
  NoDup (scatter_series Cases.gapped).*1
  ∧ (∀ r s, r ∈ top_points Cases.gapped → Building r = VStr s →
       (∃ pts, (Some (VStr s), pts) ∈ scatter_series Cases.gapped ∧ r ∈ pts)
       ∧ (∀ b pts, (b, pts) ∈ scatter_series Cases.gapped → r ∈ pts →
            b = Some (VStr s)))
  ∧ (∀ r b pts, r ∈ top_points Cases.gapped → Building r = VFloat NaN →
       (b, pts) ∈ scatter_series Cases.gapped → r ∉ pts)
  ∧ (∀ r b pts, (b, pts) ∈ scatter_series Cases.gapped → r ∈ pts →
       r ∈ top_points Cases.gapped).
Proof.
  apply (scatter_series_by_building Cases.gapped). decide_label.
Defined.

(** The point of [gapped] whose building is missing is among the top
    points and in no series. *)
Example gapped_scatter :
  scatter_series Cases.gapped
  = [ (Some (VFloat NaN), []);
      (Some (VStr "A"),
       [ {| timestamp := Some 0%Z; kWh := Fin 4; Building := VStr "A" |} ]) ].
Proof. by_computation. Qed.

(** ** What ingestion keeps of the rows of the files *)

Lemma get_column_absent (cols : list string) (rows : list (list cell))
    (name : string) (e : exn) :
  name ∉ cols → get_column cols rows name e = Raise e.
Proof.
  intros Hno. unfold get_column.
  assert (H : length (filter (λ jc : nat * string, jc.2 = name)
                        (imap pair cols)) = 0).
  { rewrite (filter_imap_length pair) by done.
    destruct (filter (λ c, c = name) cols) as [|c l] eqn:E; [done|].
    exfalso. assert (Hc : c ∈ filter (λ c, c = name) cols)
      by (rewrite E; by left).
    apply list_elem_of_filter in Hc as [-> ?]. done. }
  by destruct (filter _ (imap pair cols)).
Qed.

Lemma notna_complete (r : Reading) : notna r = true ↔ complete r.
Proof.
  unfold notna, complete.
  destruct (timestamp r) as [t|]; destruct (kWh r) as [|b|q]; simpl.
  all: split; [intros H|intros [[? ?] ?]]; try done.
  all: split; [by eexists|done].
Qed.

Lemma filter_notna_complete (l : list Reading) :
  List.filter notna l = filter complete l.
Proof.
  induction l as [|r l IH]; [done|]. rewrite filter_cons. simpl.
  rewrite IH. destruct (decide (complete r)) as [H|H].
  - apply notna_complete in H. by rewrite H.
  - destruct (notna r) eqn:E; [|done].
    by apply notna_complete in E.
Qed.

Lemma elem_of_concat (x : Reading) (ls : list (list Reading)) :
  x ∈ concat ls ↔ ∃ l, x ∈ l ∧ l ∈ ls.
Proof.
  rewrite list_elem_of_In, in_concat. split.
  - intros (l & Hl & Hx). exists l. by rewrite !list_elem_of_In.
  - intros (l & Hx & Hl). exists l. by rewrite <- !list_elem_of_In.
Qed.

Section KeptRows.

Variable pd : Parsers.

(** The part a file adds, if any, is made of the complete rows among
    its converted rows. *)
Lemma part_of_converted (f : CsvFile) :
  default [] (part_of pd f) = filter complete (converted_rows pd f).
Proof.
  rewrite <- filter_notna_complete.
  unfold part_of, try_body, converted_rows, read_csv.
  destruct (content f) as [df|]; [|done]. simpl.
  destruct (infer_building f df) as [b|e]; [|done]. simpl.
  destruct (decide ("timestamp" ∈ standardize (raw_columns df))) as [Ht|Ht].
  - destruct (decide ("kWh" ∈ standardize (raw_columns df))) as [Hk|Hk].
    + rewrite (bool_decide_eq_true_2 _ Ht), (bool_decide_eq_true_2 _ Hk).
      simpl.
      destruct (get_column _ _ "timestamp" _) as [tcol|]; [|done]. simpl.
      by destruct (get_column _ _ "kWh" _) as [kcol|].
    + rewrite (bool_decide_eq_true_2 _ Ht), (bool_decide_eq_false_2 _ Hk).
      simpl. rewrite (get_column_absent _ _ "kWh") by done.
      by destruct (get_column _ _ "timestamp" _).
  - rewrite (bool_decide_eq_false_2 _ Ht). simpl.
    by rewrite (get_column_absent _ _ "timestamp") by done.
Qed.

Lemma parts_converted (files : list CsvFile) :
  concat (omap (part_of pd) files)
  = concat ((λ f, filter complete (converted_rows pd f)) <$> files).
Proof.
  induction files as [|f files IH]; [done|].
  rewrite fmap_cons. cbn [concat omap list_omap].
  rewrite <- part_of_converted, <- IH.
  by destruct (part_of pd f).
Qed.

(** C2, amended. The rows returned by ingestion are the converted rows
    of the files that have a time stamp and a value that is not
    missing, and no other row: each of them is returned as it was
    converted, as often as it occurs, and a row that lacks its time
    stamp or its value is not returned. The value of a returned row may
    be infinite. *)
Theorem ingest_keeps_complete_rows_only (fs : gmap string (list CsvFile))
    (d : string) (files : list CsvFile) (df : Frame)
    (lg : list log_entry) :
  fs !! d = Some files →
  ingest_csv_folder pd fs d = (Ok df, lg) →
  Forall complete (readings df)
  ∧ readings df
    ≡ₚ concat ((λ f, filter complete (converted_rows pd f)) <$> files)
  ∧ (∀ f r, f ∈ files → r ∈ converted_rows pd f → complete r →
       r ∈ readings df)
  ∧ (∀ r, r ∈ readings df →
       ∃ f, f ∈ files ∧ r ∈ converted_rows pd f).
Proof.
  intros Hfs H. rewrite (ingest_csv_folder_Some _ _ _ _ Hfs) in H.
  injection H as <- _. rewrite ingest_files_frame. simpl.
  assert (Hp : sort_values (concat (omap (part_of pd) files))
               ≡ₚ concat ((λ f, filter complete (converted_rows pd f))
                          <$> files)).
  { by rewrite sort_values_perm, parts_converted. }
  split; [|split; [done|split]].
  - rewrite sort_values_perm. apply rows_complete.
  - intros f r Hf Hr Hc. rewrite Hp. apply elem_of_concat.
    exists (filter complete (converted_rows pd f)). split.
    + by apply list_elem_of_filter.
    + apply list_elem_of_fmap. by exists f.
  - intros r Hr. rewrite Hp in Hr.
    apply elem_of_concat in Hr as (l & Hr & Hl).
    apply list_elem_of_fmap in Hl as (f & -> & Hf).
    apply list_elem_of_filter in Hr as [_ Hr]. by exists f.
Qed.


End KeptRows.

Lemma ingest_keeps_complete_rows_only_witness :
  let df := {| index_name := "timestamp"; columns := ["kWh"; "Building"];
               readings :=
                 [ {| timestamp := Some 0%Z; kWh := Fin (inject_Z 5);
                      Building := VStr "patchy" |};
                   {| timestamp := Some 3%Z; kWh := Inf false;
                      Building := VStr "patchy" |} ] |} in
  Forall complete (readings df)
  ∧ readings df
    ≡ₚ concat ((λ f, filter complete (converted_rows Scenario.no_text f))
               <$> [Patchy.patchy_csv])
  ∧ (∀ f r, f ∈ [Patchy.patchy_csv] →
       r ∈ converted_rows Scenario.no_text f → complete r →
       r ∈ readings df)
  ∧ (∀ r, r ∈ readings df →
       ∃ f, f ∈ [Patchy.patchy_csv]
            ∧ r ∈ converted_rows Scenario.no_text f).
Proof.
  intros df.
  apply (ingest_keeps_complete_rows_only Scenario.no_text
           (Samples.data_dir [Patchy.patchy_csv]) "data"
           [Patchy.patchy_csv] df [InfoCombined 2 1]).
  - by_computation.
  - by_computation.
Defined.

(** The four rows of [patchy.csv] once converted; the second and the
    third are the ones ingestion leaves out. *)
Example patchy_converted_rows :
  converted_rows Scenario.no_text Patchy.patchy_csv
  = [ {| timestamp := Some 0%Z; kWh := Fin (inject_Z 5);
         Building := VStr "patchy" |};
      {| timestamp := None; kWh := Fin (inject_Z 6);
         Building := VStr "patchy" |};
      {| timestamp := Some 2%Z; kWh := NaN; Building := VStr "patchy" |};
      {| timestamp := Some 3%Z; kWh := Inf false;
         Building := VStr "patchy" |} ].
Proof. by_computation. Qed.



Example tie_order_both :
  readings (ingest_files Scenario.no_text
              [Samples.lab_csv; Samples.gym_csv]).1
  = [ {| timestamp := Some 0%Z; kWh := Fin 10; Building := VStr "Lab" |};
      {| timestamp := Some 0%Z; kWh := Fin 5; Building := VStr "Gym" |} ].
Proof. by_computation. Qed.
